(** * gpsdate: set the system clock from the first usable gpsd fix

    A shallow embedding of [gpsdate.c]: the startup connect loop of [main],
    [attempt_reconnect], [my_gps_mainloop], [callback] and the
    [S_CONNECTED]/[S_RECONNECT] state machine of [main].

    The libgps and libc calls ([gps_open], [gps_waiting], [gps_read],
    [settimeofday]) are answered by a [world]: the result of the [k]-th call
    of each function.  Every call the program makes is recorded as an
    [event] of the trace, in program order.  [osmo_daemonize] is recorded as
    one event; the model follows the process that keeps running the state
    machine after it. *)

From Stdlib Require Import String Ascii.
From Stdlib Require Import ZArith QArith List Bool Lia.
Import ListNotations.

Open Scope Z_scope.

(** ** Declarations of gps.h used by the program *)

Module Gps.

(** [#define TIME_SET (1llu<<2)] *)
Definition TIME_SET : Z := Z.shiftl 1 2.

(** [#define STATUS_NO_FIX 0] *)
Definition STATUS_NO_FIX : Z := 0.

(** The fields of [struct gps_data_t] read by [callback].  [set] is the
    64-bit mask of valid fields; [fix_time] is the [double] [fix.time],
    modelled by its exact (rational) value. *)
Record gps_data_t := mk_gps_data {
  set : Z;
  fix_time : Q;
  status : Z;
  satellites_used : Z
}.

End Gps.

Import Gps.

(** ** libc *)

Record timeval := mk_timeval { tv_sec : Z; tv_usec : Z }.

Definition EXIT_SUCCESS : Z := 0.
Definition EXIT_FAILURE : Z := 1.

Definition INT_MIN : Z := - 2 ^ 31.
Definition INT_MAX : Z := 2 ^ 31 - 1.

(** [time_t] is a signed integer of [bits] bits (64 on LP64 Linux, 32 on
    the older 32-bit ABIs). *)
Definition time_t_min (bits : Z) : Z := - 2 ^ (bits - 1).
Definition time_t_max (bits : Z) : Z := 2 ^ (bits - 1) - 1.
Definition time_t_fits (bits t : Z) : bool :=
  (time_t_min bits <=? t) && (t <=? time_t_max bits).

(** [z] reduced modulo [2 ^ bits] into the range of [time_t]. *)
Definition time_t_wrap (bits z : Z) : Z :=
  (z - time_t_min bits) mod 2 ^ bits + time_t_min bits.

(** The integral part of [d]: [d] truncated toward zero. *)
Definition Qtrunc (d : Q) : Z := Z.quot (Qnum d) (Zpos (Qden d)).

(** Conversion of a [double] to the integer type [time_t], as in
    [tv.tv_sec = gpsdata->fix.time]: C truncates toward zero.  When the
    integral part does not fit in [time_t], C leaves the conversion
    undefined; what the compiled code stores is the platform's choice
    ([oob d]: x86-64 stores the minimum, ARM saturates), a [time_t] value. *)
Definition double_to_time_t (bits : Z) (oob : Q -> Z) (d : Q) : Z :=
  if time_t_fits bits (Qtrunc d) then Qtrunc d else time_t_wrap bits (oob d).

(** [#define NUM_RETRIES 60] and [#define RETRY_SLEEP 1] *)
Definition NUM_RETRIES : Z := 60.
Definition RETRY_SLEEP : Z := 1.

(** ** Observable behaviour *)

Inductive level := LOG_DEBUG | LOG_INFO | LOG_NOTICE | LOG_ERR.

(** [timestr] of [callback]: the string [ctime] made of the [time_t] value
    [t] (its newline cut off), or ["<unknown>"] when [ctime] failed. *)
Inductive timestr := TsTime (t : Z) | TsUnknown.

(** The syslog messages of the program, by the format string they use. *)
Inductive message :=
| MsgCtimeFailed
| MsgUpdate (ts : timestr) (set status sats : Z)
| MsgNoFix (ts : timestr)
| MsgZeroSats (ts : timestr)
| MsgSetOk (ts : timestr)
| MsgSetErr (err : Z)
| MsgReconnected
| MsgNoGpsd (err : Z)
| MsgClosed (rc : Z).

Inductive event :=
| EAttempt (i : Z)            (** printf "Attempt #%d to connect..." *)
| EOpen                       (** gps_open *)
| EStream                     (** gps_stream(WATCH_ENABLE|WATCH_JSON) *)
| EWaiting                    (** gps_waiting *)
| ERead                       (** gps_read *)
| ESettime (tv : timeval)     (** settimeofday *)
| EClose                      (** gps_close *)
| ESleep (secs : Z)           (** sleep *)
| ESyslog (l : level) (m : message)
| EDaemonize                  (** osmo_daemonize *)
| EExit (code : Z).           (** closelog(); exit(code) *)

(** Answers of the environment to the external calls, indexed by the number
    of earlier calls of the same function, and the platform. *)
Record world := mk_world {
  w_open : nat -> Z;                      (** rc of gps_open *)
  w_waiting : nat -> bool;                (** gps_waiting(gdata, INT_MAX) *)
  w_read : nat -> Z * gps_data_t;         (** rc of gps_read, data it fills *)
  w_settime : timeval -> Z;               (** rc of settimeofday *)
  w_errno : Z;                            (** errno after a failed call *)
  w_ctime : Z -> bool;                    (** ctime(&time) returns a string
                                              (glibc: NULL when the year
                                              overflows an int) *)
  w_time_t_bits : Z;                      (** width of time_t *)
  w_time_t_oob : Q -> Z                   (** out-of-range double to time_t *)
}.

(** Command line: [-n], [-s], [-d]. *)
Record config := mk_config {
  num_retries : Z;
  retry_sleep : Z;
  no_detach : bool
}.

Definition default_config : config :=
  mk_config NUM_RETRIES RETRY_SLEEP false.

(** ** callback *)

(** [timestr = ctime(&time)], or ["<unknown>"] when it returns NULL. *)
Definition timestr_of (w : world) (time : Z) : timestr :=
  if w_ctime w time then TsTime time else TsUnknown.

(** The [syslog(LOG_ERR, "ctime failed")] of a failed [ctime(&time)]. *)
Definition ctime_log (w : world) (time : Z) : list event :=
  if w_ctime w time then [] else [ESyslog LOG_ERR MsgCtimeFailed].

(** [callback(gpsdata)]: the events it produces, and [Some code] when it
    ends the process with [exit(code)], [None] when it returns. *)
Definition callback (w : world) (g : gps_data_t) : list event * option Z :=
  if Z.land (set g) TIME_SET =? 0 then ([], None)
  else
    let tv := mk_timeval (double_to_time_t (w_time_t_bits w) (w_time_t_oob w)
                                           (fix_time g)) 0 in
    let time := tv_sec tv in
    let ts := timestr_of w time in
    let dbg := ctime_log w time ++
               [ESyslog LOG_DEBUG (MsgUpdate ts (set g) (status g) (satellites_used g))] in
    if status g =? STATUS_NO_FIX then
      (dbg ++ [ESyslog LOG_INFO (MsgNoFix ts)], None)
    else if satellites_used g =? 0 then
      (dbg ++ [ESyslog LOG_INFO (MsgZeroSats ts)], None)
    else
      let rc := w_settime w tv in
      if rc =? 0 then
        (dbg ++ [ESettime tv; EClose; ESyslog LOG_NOTICE (MsgSetOk ts);
                 EExit EXIT_SUCCESS], Some EXIT_SUCCESS)
      else
        (dbg ++ [ESettime tv; EClose; ESyslog LOG_ERR (MsgSetErr (w_errno w));
                 EExit EXIT_FAILURE], Some EXIT_FAILURE).

(** ** The process as a machine *)

(** [enum state] of [main]. *)
Inductive state := S_CONNECTED | S_RECONNECT.

(** Program points of [main]:
    - [PStartup i rc]: head of [for (i = 1; i <= num_retries; i++)], with the
      current value of [rc] ([None] while it has never been assigned);
    - [PAfterStartup rc]: the test [if (rc < 0)] after that loop;
    - [PMain st]: head of [while (1) switch (state)];
    - [PMainloop]: head of the [for (;;)] of [my_gps_mainloop];
    - [PExit code]: the process has exited;
    - [PUndef]: an uninitialized variable was read;
    - [POverflow]: the [i++] of the startup loop overflowed [int]. *)
Inductive pc :=
| PStartup (i : Z) (rc : option Z)
| PAfterStartup (rc : option Z)
| PMain (st : state)
| PMainloop
| PExit (code : Z)
| PUndef
| POverflow.

Record machine := mk_machine {
  m_pc : pc;
  m_opens : nat;      (** gps_open calls so far *)
  m_waits : nat;      (** gps_waiting calls so far *)
  m_reads : nat;      (** gps_read calls so far *)
  m_trace : list event
}.

Definition init : machine := mk_machine (PStartup 1 None) 0 0 0 [].

Definition goto (m : machine) (p : pc) (evs : list event) : machine :=
  mk_machine p (m_opens m) (m_waits m) (m_reads m) (m_trace m ++ evs).

(** [attempt_reconnect]: its result and the events of the call. *)
Definition attempt_reconnect (w : world) (k : nat) : Z * list event :=
  if negb (w_open w k =? 0) then (-1, [EOpen])
  else (0, [EOpen; ESyslog LOG_INFO MsgReconnected; EStream]).

(** The machine after calling [attempt_reconnect]. *)
Definition after_connect (m : machine) (evs : list event) (p : pc) : machine :=
  mk_machine p (S (m_opens m)) (m_waits m) (m_reads m) (m_trace m ++ evs).

(** One iteration of the [for (;;)] of [my_gps_mainloop]: it continues,
    returns [rc], or the hook ended the process. *)
Inductive loop_result := LoopAgain | LoopReturn (rc : Z) | LoopExit (code : Z).

Definition mainloop_iter (w : world) (m : machine)
  : loop_result * nat * nat * list event :=
  let wt := m_waits m in
  let rd := m_reads m in
  if negb (w_waiting w wt) then (LoopReturn (-1), S wt, rd, [EWaiting])
  else
    let (rc, g) := w_read w rd in
    if rc <? 0 then (LoopReturn rc, S wt, S rd, [EWaiting; ERead])
    else
      let (evs, ex) := callback w g in
      match ex with
      | None => (LoopAgain, S wt, S rd, [EWaiting; ERead] ++ evs)
      | Some code => (LoopExit code, S wt, S rd, [EWaiting; ERead] ++ evs)
      end.

(** One step of [main]. *)
Definition step (c : config) (w : world) (m : machine) : machine :=
  match m_pc m with
  | PStartup i rc =>
      if i <=? num_retries c then
        let (r, evs) := attempt_reconnect w (m_opens m) in
        if r >=? 0 then after_connect m (EAttempt i :: evs) (PAfterStartup (Some r))
        else after_connect m (EAttempt i :: evs ++ [ESleep (retry_sleep c)])
                           (if i <? INT_MAX then PStartup (i + 1) (Some r) else POverflow)
      else goto m (PAfterStartup rc) []
  | PAfterStartup None => goto m PUndef []
  | PAfterStartup (Some r) =>
      if r <? 0 then
        goto m (PExit EXIT_FAILURE)
             [ESyslog LOG_ERR (MsgNoGpsd (w_errno w)); EExit EXIT_FAILURE]
      else goto m (PMain S_CONNECTED) (if no_detach c then [] else [EDaemonize])
  | PMain S_CONNECTED => goto m PMainloop []
  | PMainloop =>
      match mainloop_iter w m with
      | (LoopAgain, wt, rd, evs) =>
          mk_machine PMainloop (m_opens m) wt rd (m_trace m ++ evs)
      | (LoopExit code, wt, rd, evs) =>
          mk_machine (PExit code) (m_opens m) wt rd (m_trace m ++ evs)
      | (LoopReturn rc, wt, rd, evs) =>
          let p := if rc <? 1 then PMain S_RECONNECT else PMain S_CONNECTED in
          let evs' := if rc <? 1 then [ESyslog LOG_ERR (MsgClosed rc); EClose]
                      else [] in
          mk_machine p (m_opens m) wt rd (m_trace m ++ evs ++ evs')
      end
  | PMain S_RECONNECT =>
      let (r, evs) := attempt_reconnect w (m_opens m) in
      if r <? 0 then after_connect m (evs ++ [ESleep RETRY_SLEEP]) (PMain S_RECONNECT)
      else after_connect m evs (PMain S_CONNECTED)
  | PExit code => m
  | PUndef => m
  | POverflow => m
  end.

Fixpoint run (c : config) (w : world) (n : nat) (m : machine) : machine :=
  match n with
  | O => m
  | S n' => run c w n' (step c w m)
  end.

(** ** Sample inputs *)

Definition fix_ok : gps_data_t := mk_gps_data TIME_SET (1700000000 # 1) 1 4.

(** The platform of the samples, 64-bit glibc on x86-64: [ctime] succeeds
    on the sample times, and an out-of-range conversion to [time_t]
    ([cvttsd2si]) stores the minimum of [time_t]. *)
Definition ctime_ok (time : Z) : bool := true.
Definition x86_64_oob (d : Q) : Z := time_t_min 64.

(** gpsd is never reachable. *)
Definition world_down : world :=
  mk_world (fun _ => -1) (fun _ => false) (fun _ => (0, fix_ok)) (fun _ => 0) 111
    ctime_ok 64 x86_64_oob.

(** A report with a fix time but without the [TIME_SET] bit. *)
Definition fix_no_time : gps_data_t := mk_gps_data 0 (1700000000 # 1) 1 4.

(** gpsd answers every wait, and every read delivers [g]; clock set rc [st]. *)
Definition world_feed (g : gps_data_t) (st : Z) : world :=
  mk_world (fun _ => 0) (fun _ => true) (fun _ => (0, g)) (fun _ => st) 1
    ctime_ok 64 x86_64_oob.

(** A usable report of 2038-01-19 03:14:08 UTC, [2^31] s after the epoch. *)
Definition fix_2038 : gps_data_t := mk_gps_data TIME_SET (2147483648 # 1) 1 4.

(** A 32-bit platform with a 32-bit [time_t], such as ARMv7 with glibc
    built without [_TIME_BITS=64]: [vcvt] saturates an out-of-range
    conversion to the nearest bound. *)
Definition arm32_saturate (d : Q) : Z :=
  if Qtrunc d <? 0 then time_t_min 32 else time_t_max 32.

(** gpsd answers every wait with [fix_2038] on that platform. *)
Definition world_arm32 : world :=
  mk_world (fun _ => 0) (fun _ => true) (fun _ => (0, fix_2038)) (fun _ => 0) 1
    ctime_ok 32 arm32_saturate.

(** ** Auxiliary definitions for the statements *)

(** Number of clock sets in a trace. *)
Fixpoint count_settime (evs : list event) : nat :=
  match evs with
  | [] => O
  | ESettime _ :: r => S (count_settime r)
  | _ :: r => count_settime r
  end.

(** The [time] field is marked present in [fieldsPresent]. *)
Definition time_present (g : gps_data_t) : Prop := Z.land (set g) TIME_SET <> 0.

(** The spec's reading of "truncated to whole seconds": the integer [s]
    obtained by dropping the fractional part of [q]. *)
Definition spec_truncated_seconds (q : Q) (s : Z) : Prop :=
  (0 <= q -> inject_Z s <= q < inject_Z (s + 1))%Q /\
  (q < 0 -> inject_Z (s - 1) < q <= inject_Z s)%Q.

(** ** Trace shapes, invariants and sample machines *)

(** A [PMainloop] machine, fed by [world_feed]. *)
Definition in_mainloop : machine := mk_machine PMainloop 1 0 0 [].

(** A report with status "no fix" and otherwise usable. *)
Definition fix_nofix : gps_data_t := mk_gps_data TIME_SET (1700000000 # 1) 0 4.

(** A report with a fix but no satellite used. *)
Definition fix_nosats : gps_data_t := mk_gps_data TIME_SET (1700000000 # 1) 2 0.

(** Events of the startup loop while no connection has been made. *)
Definition startup_event (e : event) : Prop :=
  match e with EAttempt _ | EOpen | ESleep _ => True | _ => False end.

(** The end of a trace after [callback] has set the clock. *)
Definition commit_shape (w : world) (code : Z) (tr : list event) : Prop :=
  exists pre tv,
    count_settime pre = O /\
    tr = pre ++ [ESettime tv; EClose] ++
         (if w_settime w tv =? 0
          then [ESyslog LOG_NOTICE (MsgSetOk (timestr_of w (tv_sec tv))); EExit EXIT_SUCCESS]
          else [ESyslog LOG_ERR (MsgSetErr (w_errno w)); EExit EXIT_FAILURE]) /\
    code = (if w_settime w tv =? 0 then EXIT_SUCCESS else EXIT_FAILURE).

(** The end of a trace after the startup loop gave up. *)
Definition exhausted_shape (w : world) (code : Z) (tr : list event) : Prop :=
  code = EXIT_FAILURE /\
  exists pre, Forall startup_event pre /\
    tr = pre ++ [ESyslog LOG_ERR (MsgNoGpsd (w_errno w)); EExit EXIT_FAILURE].

Definition run_inv (w : world) (m : machine) : Prop :=
  match m_pc m with
  | PStartup _ _ | PAfterStartup None | POverflow => Forall startup_event (m_trace m)
  | PAfterStartup (Some r) =>
      if r <? 0 then Forall startup_event (m_trace m)
      else count_settime (m_trace m) = O
  | PMain _ | PMainloop | PUndef => count_settime (m_trace m) = O
  | PExit code => commit_shape w code (m_trace m) \/ exhausted_shape w code (m_trace m)
  end.

(** The program points past the startup loop. *)
Definition post_startup (p : pc) : bool :=
  match p with PMain _ | PMainloop | PExit _ => true | _ => false end.

(** Past the startup loop, a run either goes on or has exited after
    setting the clock. *)
Definition post_inv (w : world) (m : machine) : Prop :=
  match m_pc m with
  | PMain _ | PMainloop => count_settime (m_trace m) = O
  | PExit code => commit_shape w code (m_trace m)
  | _ => False
  end.

(** A machine in [S_RECONNECT] with gpsd down. *)
Definition in_reconnect : machine := mk_machine (PMain S_RECONNECT) 5 2 1 [].

(** Every [sleep] in [tr] lasts [d] seconds. *)
Definition sleeps_are (d : Z) (tr : list event) : Prop :=
  forall s, In (ESleep s) tr -> s = d.

(** While the startup loop runs, every [sleep] lasts [retry_sleep]. *)
Definition startup_sleeps (c : config) (m : machine) : Prop :=
  match m_pc m with
  | PStartup _ _ | PAfterStartup _ | POverflow => sleeps_are (retry_sleep c) (m_trace m)
  | _ => True
  end.

(** A machine in [S_RECONNECT], with gpsd down and [-s 7]. *)
Definition config_s7 : config := mk_config NUM_RETRIES 7 false.

(** [rc] has been assigned before the test [if (rc < 0)] is reached. *)
Definition rc_assigned (m : machine) : Prop :=
  match m_pc m with
  | PStartup i rc => rc = None -> i = 1
  | PAfterStartup rc => rc <> None
  | PUndef => False
  | _ => True
  end.

(** [-n 0]. *)
Definition config_n0 : config := mk_config 0 RETRY_SLEEP false.

(** [-n 3]. *)
Definition config_n3 : config := mk_config 3 RETRY_SLEEP false.

(** [-n 2147483647]. *)
Definition config_intmax : config := mk_config INT_MAX RETRY_SLEEP false.

(** ** osmo_daemonize *)

(** [EEXIST] of Linux' errno.h. *)
Definition EEXIST : Z := 17.

(** Answers of the operating system to the calls of [osmo_daemonize], as
    seen by the calling process: [fork_rc] is the [pid] [fork()] returns in
    it (positive in the parent, 0 in the child, negative on error). *)
Record os_answers := mk_os {
  getppid_rc : Z;
  fork_rc : Z;
  setsid_rc : Z;
  chdir_rc : Z
}.

Inductive os_event :=
| OGetppid
| OFork
| OExit (code : Z)
| OUmask (mask : Z)
| OSetsid
| OChdir (dir : string)
| OFreopen (path mode : string) (stream : string).

(** The process either returns [rc] from [osmo_daemonize] or exits. *)
Inductive daemon_result := DReturn (rc : Z) | DExit (code : Z).

(** [osmo_daemonize()]; [stderr] is a macro in glibc, so the [#ifdef stderr]
    block is compiled in. *)
Definition osmo_daemonize (o : os_answers) : list os_event * daemon_result :=
  if getppid_rc o =? 1 then ([OGetppid], DReturn (- EEXIST))
  else
    let pid := fork_rc o in
    if pid <? 0 then ([OGetppid; OFork], DReturn pid)
    else if pid >? 0 then ([OGetppid; OFork; OExit 0], DExit 0)
    else
      let pre := [OGetppid; OFork; OUmask 0; OSetsid] in
      let sid := setsid_rc o in
      if sid <? 0 then (pre, DReturn sid)
      else
        let rc := chdir_rc o in
        if rc <? 0 then (pre ++ [OChdir "/tmp"%string], DReturn rc)
        else (pre ++ [OChdir "/tmp"%string;
                      OFreopen "/dev/null"%string "r"%string "stdin"%string;
                      OFreopen "/dev/null"%string "w"%string "stdout"%string;
                      OFreopen "/dev/null"%string "w"%string "stderr"%string],
              DReturn 0).

(** ** Command line *)

(** [isspace] and [isdigit] of the C locale. *)
Definition isspace (ch : ascii) : bool :=
  let n := Z.of_nat (nat_of_ascii ch) in (n =? 32) || ((9 <=? n) && (n <=? 13)).
Definition isdigit (ch : ascii) : bool :=
  let n := Z.of_nat (nat_of_ascii ch) in (48 <=? n) && (n <=? 57).
Definition digit_value (ch : ascii) : Z := Z.of_nat (nat_of_ascii ch) - 48.

Fixpoint skip_space (s : string) : string :=
  match s with
  | String ch r => if isspace ch then skip_space r else s
  | EmptyString => s
  end.

(** The value of the longest prefix of decimal digits of [s], appended to
    [acc]. *)
Fixpoint digits_value (acc : Z) (s : string) : Z :=
  match s with
  | String ch r => if isdigit ch then digits_value (acc * 10 + digit_value ch) r else acc
  | EmptyString => acc
  end.

(** [strtol(nptr, NULL, 10)] without its range clamp: leading white space,
    an optional sign, then decimal digits. *)
Definition strtol10 (s : string) : Z :=
  match skip_space s with
  | String ch r =>
      if Ascii.eqb ch "-"%char then - digits_value 0 r
      else if Ascii.eqb ch "+"%char then digits_value 0 r
      else digits_value 0 (String ch r)
  | EmptyString => 0
  end.

(** [atoi(s)]: [None] when the value does not fit in an [int], where the C
    standard leaves the result undefined. *)
Definition atoi (s : string) : option Z :=
  let v := strtol10 s in
  if (INT_MIN <=? v) && (v <=? INT_MAX) then Some v else None.

(** The options [getopt_long] hands to the loop of [main], each with its
    [optarg]: ['n'] for [-n]/[--num-retries], ['s'] for [-s]/[--retry-sleep],
    ['d'] for [-d]/[--no-detach], anything else (['?']) for the rest.
    [None] when an [atoi] is undefined. *)
Fixpoint parse_opts (c : config) (opts : list (ascii * string)) : option config :=
  match opts with
  | [] => Some c
  | (ch, optarg) :: r =>
      if Ascii.eqb ch "n"%char then
        match atoi optarg with
        | Some v => parse_opts (mk_config v (retry_sleep c) (no_detach c)) r
        | None => None
        end
      else if Ascii.eqb ch "s"%char then
        match atoi optarg with
        | Some v => parse_opts (mk_config (num_retries c) v (no_detach c)) r
        | None => None
        end
      else if Ascii.eqb ch "d"%char then
        parse_opts (mk_config (num_retries c) (retry_sleep c) true) r
      else parse_opts c r
  end.

(** The value of the last occurrence of option [ch] in [opts]. *)
Fixpoint last_optarg (ch : ascii) (opts : list (ascii * string)) : option string :=
  match opts with
  | [] => None
  | (c, a) :: r =>
      match last_optarg ch r with
      | Some a' => Some a'
      | None => if Ascii.eqb c ch then Some a else None
      end
  end.

(** A string of decimal digits. *)
Fixpoint digit_string (ds : list Z) : string :=
  match ds with
  | [] => EmptyString
  | d :: r => String (ascii_of_nat (Z.to_nat (48 + d))) (digit_string r)
  end.

(** The number the digits [ds] denote. *)
Definition decimal_value (ds : list Z) : Z := fold_left (fun acc d => acc * 10 + d) ds 0.

(** ** Connection handle *)

(** Whether a connection to gpsd is open after [evs], starting from [b]:
    [gps_stream] follows every successful [gps_open], [gps_close] ends it. *)
Fixpoint conn_after (b : bool) (evs : list event) : bool :=
  match evs with
  | [] => b
  | EStream :: r => conn_after true r
  | EClose :: r => conn_after false r
  | _ :: r => conn_after b r
  end.

(** No [gps_open] is made while a connection is open. *)
Fixpoint opens_when_closed (b : bool) (evs : list event) : bool :=
  match evs with
  | [] => true
  | EOpen :: r => negb b && opens_when_closed b r
  | EStream :: r => opens_when_closed true r
  | EClose :: r => opens_when_closed false r
  | _ :: r => opens_when_closed b r
  end.

(** Whether the connection is open, by program point. *)
Definition conn_inv (m : machine) : Prop :=
  opens_when_closed false (m_trace m) = true /\
  match m_pc m with
  | PStartup _ rc =>
      conn_after false (m_trace m) = false /\ (forall r, rc = Some r -> r < 0)
  | PAfterStartup None | PMain S_RECONNECT | PExit _ | PUndef | POverflow =>
      conn_after false (m_trace m) = false
  | PAfterStartup (Some r) => conn_after false (m_trace m) = negb (r <? 0)
  | PMain S_CONNECTED | PMainloop => conn_after false (m_trace m) = true
  end.

Fixpoint count_daemonize (evs : list event) : nat :=
  match evs with
  | [] => O
  | EDaemonize :: r => S (count_daemonize r)
  | _ :: r => count_daemonize r
  end.

(** After the startup loop: at most one detach, none under [-d], and a
    detach is preceded by an established connection. *)
Definition detach_post (c : config) (tr : list event) : Prop :=
  (count_daemonize tr <= 1)%nat /\
  (no_detach c = true -> count_daemonize tr = 0%nat) /\
  (count_daemonize tr = 1%nat ->
   exists a b, tr = a ++ EDaemonize :: b /\ In EStream a).

Definition detach_inv (c : config) (m : machine) : Prop :=
  match m_pc m with
  | PStartup _ rc =>
      count_daemonize (m_trace m) = 0%nat /\ (forall r, rc = Some r -> r < 0)
  | PAfterStartup None => count_daemonize (m_trace m) = 0%nat
  | PAfterStartup (Some r) =>
      count_daemonize (m_trace m) = 0%nat /\ (0 <= r -> In EStream (m_trace m))
  | _ => detach_post c (m_trace m)
  end.

(** The events of [j] failed startup attempts, the first numbered [i]. *)
Fixpoint fail_blocks (c : config) (i : Z) (j : nat) : list event :=
  match j with
  | O => []
  | S j' => [EAttempt i; EOpen; ESleep (retry_sleep c)] ++ fail_blocks c (i + 1) j'
  end.

(** Sample answers of the system calls of [osmo_daemonize]: the child
    side and the parent side of a successful fork. *)
Definition os_child_ok : os_answers := mk_os 1234 0 1300 0.

Definition os_parent : os_answers := mk_os 1234 4321 0 0.

(** The reports [t < j] of a run of [my_gps_mainloop] are read and
    rejected. *)
Definition rejected_reports (w : world) (m : machine) (j : nat) : Prop :=
  forall t, (t < j)%nat ->
    w_waiting w (m_waits m + t) = true /\
    0 <= fst (w_read w (m_reads m + t)) /\
    snd (callback w (snd (w_read w (m_reads m + t)))) = None.

(** Scenario of the spec: a report without fix, one without satellites, then
    a usable one. *)
Definition world_scenario_b : world :=
  mk_world (fun _ => 0) (fun _ => true)
    (fun k => match k with
              | O => (0, fix_nofix)
              | 1%nat => (0, fix_nosats)
              | _ => (0, fix_ok)
              end) (fun _ => 0) 1 ctime_ok 64 x86_64_oob.

(** ** Lemmas *)

Lemma count_settime_app (a b : list event) :
  count_settime (a ++ b) = (count_settime a + count_settime b)%nat.
Proof. induction a as [|e a IH]; [reflexivity|]; destruct e; simpl; lia. Qed.

Lemma Qtrunc_truncates (q : Q) : spec_truncated_seconds q (Qtrunc q).
Proof.
  destruct q as [n d]; unfold spec_truncated_seconds, Qtrunc,
    Qle, Qlt, inject_Z; simpl.
  pose proof (Z.quot_rem' n (Zpos d)) as E.
  split; intros Hq.
  - assert (0 <= n) by lia.
    pose proof (Z.rem_bound_pos n (Zpos d) ltac:(lia) ltac:(lia)). nia.
  - assert (n <= 0) by lia.
    pose proof (Z.rem_bound_pos_neg n (Zpos d) ltac:(lia) ltac:(lia)). nia.
Qed.

(** The integer part is unique. *)
Lemma truncated_unique (q : Q) (s : Z) : spec_truncated_seconds q s -> s = Qtrunc q.
Proof.
  pose proof (Qtrunc_truncates q) as [T1 T2]. intros [S1 S2].
  destruct q as [n d]; unfold Qle, Qlt, inject_Z in *; cbn [Qnum Qden] in *.
  destruct (Z.le_gt_cases 0 n) as [Hn|Hn].
  - assert (H : 0 * 1 <= n * 1) by lia.
    specialize (T1 H); specialize (S1 H). nia.
  - assert (H : n * 1 < 0 * 1) by lia.
    specialize (T2 H); specialize (S2 H). nia.
Qed.

Lemma double_to_time_t_in_range bits oob d :
  time_t_fits bits (Qtrunc d) = true -> double_to_time_t bits oob d = Qtrunc d.
Proof. unfold double_to_time_t. intros ->. reflexivity. Qed.



(** A report that [callback] returns on: [my_gps_mainloop] goes on
    waiting, and nothing but the wait, the read and [evs] happens. *)
Lemma step_mainloop_callback_returns c w m rc g evs :
  m_pc m = PMainloop ->
  w_waiting w (m_waits m) = true ->
  w_read w (m_reads m) = (rc, g) -> 0 <= rc ->
  callback w g = (evs, None) ->
  step c w m = mk_machine PMainloop (m_opens m) (S (m_waits m)) (S (m_reads m))
                 (m_trace m ++ [EWaiting; ERead] ++ evs).
Proof.
  intros Hpc Hw Hr Hrc Hcb. unfold step, mainloop_iter. rewrite Hpc, Hw, Hr. simpl.
  destruct (rc <? 0) eqn:E; [lia|]. rewrite Hcb. reflexivity.
Qed.

(** ** Claims *)

(** C1 (amended): a report with the time present, a status other than "no
    fix" and at least one satellite used, whose time truncated to whole
    seconds fits in [time_t], is accepted: [callback] logs it (after
    "ctime failed" when [ctime] fails) and sets the clock, and the value it
    passes to [settimeofday] is the report's time truncated to whole
    seconds, with [tv_usec = 0]. *)
Theorem callback_accepts_whole_seconds (w : world) (g : gps_data_t) :
  time_present g -> status g <> STATUS_NO_FIX -> 0 < satellites_used g ->
  time_t_fits (w_time_t_bits w) (Qtrunc (fix_time g)) = true ->
  exists tv evs code,
    callback w g =
      (ctime_log w (tv_sec tv) ++
       [ESyslog LOG_DEBUG (MsgUpdate (timestr_of w (tv_sec tv)) (set g) (status g)
                             (satellites_used g))]
       ++ ESettime tv :: evs, Some code) /\
    count_settime evs = O /\
    tv_usec tv = 0 /\ spec_truncated_seconds (fix_time g) (tv_sec tv).
Proof.
  intros Ht Hs Hn Hf. unfold callback.
  destruct (Z.land (set g) TIME_SET =? 0) eqn:E1; [apply Z.eqb_eq in E1; contradiction|].
  destruct (status g =? STATUS_NO_FIX) eqn:E2; [apply Z.eqb_eq in E2; contradiction|].
  destruct (satellites_used g =? 0) eqn:E3; [apply Z.eqb_eq in E3; lia|].
  rewrite (double_to_time_t_in_range _ _ _ Hf).
  exists (mk_timeval (Qtrunc (fix_time g)) 0). cbv beta zeta.
  destruct (w_settime w _ =? 0); eexists _, _;
    (split; [rewrite <- app_assoc; reflexivity|]);
    (split; [reflexivity|]); (split; [reflexivity | apply Qtrunc_truncates]).
Qed.

Lemma callback_accepts_whole_seconds_witness :
  time_present fix_ok /\ status fix_ok <> STATUS_NO_FIX /\ 0 < satellites_used fix_ok /\
  time_t_fits 64 (Qtrunc (fix_time fix_ok)) = true /\
  exists tv evs code,
    callback (world_feed fix_ok 0) fix_ok =
      (ctime_log (world_feed fix_ok 0) (tv_sec tv) ++
       [ESyslog LOG_DEBUG (MsgUpdate (timestr_of (world_feed fix_ok 0) (tv_sec tv))
                             (set fix_ok) (status fix_ok) (satellites_used fix_ok))]
       ++ ESettime tv :: evs, Some code) /\
    count_settime evs = O /\
    tv_usec tv = 0 /\ spec_truncated_seconds (fix_time fix_ok) (tv_sec tv).
Proof.
  assert (H1 : time_present fix_ok) by (unfold time_present; vm_compute; discriminate).
  assert (H2 : status fix_ok <> STATUS_NO_FIX) by (vm_compute; discriminate).
  assert (H3 : 0 < satellites_used fix_ok) by (simpl; lia).
  assert (H4 : time_t_fits 64 (Qtrunc (fix_time fix_ok)) = true) by (vm_compute; reflexivity).
  split; [exact H1|]. split; [exact H2|]. split; [exact H3|]. split; [exact H4|].
  exact (callback_accepts_whole_seconds (world_feed fix_ok 0) fix_ok H1 H2 H3 H4).
Defined.

(** C1, counterexample to the unrestricted claim: with a 32-bit [time_t]
    whose out-of-range conversion saturates, a usable report of
    2038-01-19 03:14:08 UTC ([2^31] s) is accepted, but the clock is set to
    [2^31 - 1] s, which is not the report's time truncated to whole
    seconds. *)
Lemma callback_y2038_not_truncated :
  time_present fix_2038 /\ status fix_2038 <> STATUS_NO_FIX /\ 0 < satellites_used fix_2038 /\
  exists evs code,
    callback world_arm32 fix_2038 = (evs, Some code) /\
    In (ESettime (mk_timeval 2147483647 0)) evs /\
    forall tv, In (ESettime tv) evs -> ~ spec_truncated_seconds (fix_time fix_2038) (tv_sec tv).
Proof.
  split; [unfold time_present; vm_compute; discriminate|].
  split; [vm_compute; discriminate|].
  split; [vm_compute; reflexivity|].
  exists (fst (callback world_arm32 fix_2038)), EXIT_SUCCESS.
  split; [vm_compute; reflexivity|].
  split; [vm_compute; right; left; reflexivity|].
  intros tv Hin Ht. apply truncated_unique in Ht.
  vm_compute in Hin. destruct Hin as [H|[H|[H|[H|[H|[]]]]]]; try discriminate H.
  injection H as Htv. subst tv. vm_compute in Ht. discriminate Ht.
Qed.

(** C4: a report without the [time] field is rejected whatever its status
    and satellite count: [callback] does nothing, no clock is set, and
    [my_gps_mainloop] goes on waiting for the next report. *)
Theorem callback_rejects_missing_time c w m rc g :
  ~ time_present g ->
  m_pc m = PMainloop -> w_waiting w (m_waits m) = true ->
  w_read w (m_reads m) = (rc, g) -> 0 <= rc ->
  callback w g = ([], None) /\
  m_pc (step c w m) = PMainloop /\
  count_settime (m_trace (step c w m)) = count_settime (m_trace m).
Proof.
  intros Ht Hpc Hw Hr Hrc.
  assert (Hcb : callback w g = ([], None)).
  { unfold time_present in Ht. unfold callback.
    destruct (Z.land (set g) TIME_SET =? 0) eqn:E; [reflexivity|].
    apply Z.eqb_neq in E. contradiction. }
  rewrite (step_mainloop_callback_returns c w m rc g [] Hpc Hw Hr Hrc Hcb).
  simpl. rewrite count_settime_app. simpl. repeat split; [exact Hcb | lia].
Qed.

Lemma callback_rejects_missing_time_witness :
  ~ time_present fix_no_time /\
  callback (world_feed fix_no_time 0) fix_no_time = ([], None) /\
  m_pc (step default_config (world_feed fix_no_time 0) in_mainloop) = PMainloop /\
  count_settime (m_trace (step default_config (world_feed fix_no_time 0) in_mainloop))
  = count_settime (m_trace in_mainloop).
Proof.
  assert (H : ~ time_present fix_no_time)
    by (unfold time_present; vm_compute; intro E; exact (E eq_refl)).
  split; [exact H|].
  apply (callback_rejects_missing_time default_config (world_feed fix_no_time 0)
           in_mainloop 0 fix_no_time H); reflexivity || lia.
Defined.

Lemma callback_reject_no_settime w g evs :
  callback w g = (evs, None) -> count_settime evs = O.
Proof.
  unfold callback, ctime_log.
  destruct (Z.land (set g) TIME_SET =? 0); [intros [= <-]; reflexivity|].
  destruct (w_ctime w _);
    (destruct (status g =? STATUS_NO_FIX); [intros [= <-]; reflexivity|]);
    (destruct (satellites_used g =? 0); [intros [= <-]; reflexivity|]);
    destruct (w_settime w _ =? 0); discriminate.
Qed.

(** C5: a report whose status is "no fix" is rejected even with the time
    present and satellites used: no clock is set and [my_gps_mainloop]
    goes on waiting for the next report. *)
Theorem callback_rejects_no_fix c w m rc g :
  status g = STATUS_NO_FIX ->
  m_pc m = PMainloop -> w_waiting w (m_waits m) = true ->
  w_read w (m_reads m) = (rc, g) -> 0 <= rc ->
  (exists evs, callback w g = (evs, None) /\ count_settime evs = O) /\
  m_pc (step c w m) = PMainloop /\
  count_settime (m_trace (step c w m)) = count_settime (m_trace m).
Proof.
  intros Hs Hpc Hw Hr Hrc.
  assert (Hcb : exists evs, callback w g = (evs, None)).
  { unfold callback. rewrite Hs, Z.eqb_refl.
    destruct (Z.land (set g) TIME_SET =? 0); eexists; reflexivity. }
  destruct Hcb as [evs Hcb].
  rewrite (step_mainloop_callback_returns c w m rc g evs Hpc Hw Hr Hrc Hcb).
  simpl. rewrite count_settime_app. simpl.
  pose proof (callback_reject_no_settime w g evs Hcb).
  repeat split; [exists evs; split; assumption | lia].
Qed.

Lemma callback_rejects_no_fix_witness :
  status fix_nofix = STATUS_NO_FIX /\ time_present fix_nofix /\
  0 < satellites_used fix_nofix /\
  (exists evs, callback (world_feed fix_nofix 0) fix_nofix = (evs, None) /\
               count_settime evs = O) /\
  m_pc (step default_config (world_feed fix_nofix 0) in_mainloop) = PMainloop /\
  count_settime (m_trace (step default_config (world_feed fix_nofix 0) in_mainloop))
  = count_settime (m_trace in_mainloop).
Proof.
  split; [reflexivity|]. split; [unfold time_present; vm_compute; discriminate|].
  split; [simpl; lia|].
  apply (callback_rejects_no_fix default_config (world_feed fix_nofix 0)
           in_mainloop 0 fix_nofix); reflexivity || lia.
Defined.

(** C6: a report with [satellites_used = 0] is rejected even when its
    status is a fix: no clock is set and [my_gps_mainloop] goes on
    waiting for the next report. *)
Theorem callback_rejects_zero_satellites c w m rc g :
  satellites_used g = 0 ->
  m_pc m = PMainloop -> w_waiting w (m_waits m) = true ->
  w_read w (m_reads m) = (rc, g) -> 0 <= rc ->
  (exists evs, callback w g = (evs, None) /\ count_settime evs = O) /\
  m_pc (step c w m) = PMainloop /\
  count_settime (m_trace (step c w m)) = count_settime (m_trace m).
Proof.
  intros Hs Hpc Hw Hr Hrc.
  assert (Hcb : exists evs, callback w g = (evs, None)).
  { unfold callback. rewrite Hs.
    destruct (Z.land (set g) TIME_SET =? 0); [eexists; reflexivity|].
    destruct (status g =? STATUS_NO_FIX); eexists; reflexivity. }
  destruct Hcb as [evs Hcb].
  rewrite (step_mainloop_callback_returns c w m rc g evs Hpc Hw Hr Hrc Hcb).
  simpl. rewrite count_settime_app. simpl.
  pose proof (callback_reject_no_settime w g evs Hcb).
  repeat split; [exists evs; split; assumption | lia].
Qed.

Lemma callback_rejects_zero_satellites_witness :
  satellites_used fix_nosats = 0 /\ time_present fix_nosats /\
  status fix_nosats <> STATUS_NO_FIX /\
  (exists evs, callback (world_feed fix_nosats 0) fix_nosats = (evs, None) /\
               count_settime evs = O) /\
  m_pc (step default_config (world_feed fix_nosats 0) in_mainloop) = PMainloop /\
  count_settime (m_trace (step default_config (world_feed fix_nosats 0) in_mainloop))
  = count_settime (m_trace in_mainloop).
Proof.
  split; [reflexivity|]. split; [unfold time_present; vm_compute; discriminate|].
  split; [vm_compute; discriminate|].
  apply (callback_rejects_zero_satellites default_config (world_feed fix_nosats 0)
           in_mainloop 0 fix_nosats); reflexivity || lia.
Defined.

(** C7: in [S_CONNECTED], both ways of losing the connection (the wait
    finds nothing, or [gps_read] fails) make [my_gps_mainloop] return a
    negative value; [main] then logs it, closes the handle with [gps_close]
    and moves to [S_RECONNECT] instead of exiting. *)
Theorem connection_lost_reconnects c w m :
  m_pc m = PMainloop ->
  w_waiting w (m_waits m) = false \/
  (w_waiting w (m_waits m) = true /\ fst (w_read w (m_reads m)) < 0) ->
  exists rc wt rd evs,
    rc < 0 /\
    mainloop_iter w m = (LoopReturn rc, wt, rd, evs) /\
    step c w m = mk_machine (PMain S_RECONNECT) (m_opens m) wt rd
                   (m_trace m ++ evs ++ [ESyslog LOG_ERR (MsgClosed rc); EClose]).
Proof.
  intros Hpc Hlost. unfold step. rewrite Hpc.
  destruct Hlost as [Hw | [Hw Hr]].
  - exists (-1), (S (m_waits m)), (m_reads m), [EWaiting].
    assert (E : mainloop_iter w m = (LoopReturn (-1), S (m_waits m), m_reads m, [EWaiting]))
      by (unfold mainloop_iter; rewrite Hw; reflexivity).
    rewrite E. split; [lia|]. split; reflexivity.
  - destruct (w_read w (m_reads m)) as [rc g] eqn:R. simpl in Hr.
    exists rc, (S (m_waits m)), (S (m_reads m)), [EWaiting; ERead].
    assert (E : mainloop_iter w m =
                (LoopReturn rc, S (m_waits m), S (m_reads m), [EWaiting; ERead])).
    { unfold mainloop_iter. rewrite Hw, R. simpl.
      destruct (rc <? 0) eqn:L; [reflexivity | apply Z.ltb_ge in L; lia]. }
    rewrite E. split; [exact Hr|]. split; [reflexivity|].
    destruct (rc <? 1) eqn:L; [reflexivity | apply Z.ltb_ge in L; lia].
Qed.

Lemma connection_lost_reconnects_witness :
  exists rc wt rd evs,
    rc < 0 /\
    mainloop_iter world_down in_mainloop = (LoopReturn rc, wt, rd, evs) /\
    step default_config world_down in_mainloop =
      mk_machine (PMain S_RECONNECT) (m_opens in_mainloop) wt rd
        (m_trace in_mainloop ++ evs ++ [ESyslog LOG_ERR (MsgClosed rc); EClose]).
Proof.
  apply (connection_lost_reconnects default_config world_down in_mainloop).
  - reflexivity.
  - left; reflexivity.
Defined.

(** ** Shape of the traces of a run *)

Lemma startup_no_settime tr : Forall startup_event tr -> count_settime tr = O.
Proof. induction 1 as [|e tr He _ IH]; [reflexivity|]. destruct e; simpl in *; tauto. Qed.

Lemma attempt_reconnect_no_settime w k r evs :
  attempt_reconnect w k = (r, evs) -> count_settime evs = O.
Proof.
  unfold attempt_reconnect. destruct (negb _); intros [= _ <-]; reflexivity.
Qed.

Lemma attempt_reconnect_fail w k r evs :
  attempt_reconnect w k = (r, evs) -> r < 0 -> evs = [EOpen].
Proof.
  unfold attempt_reconnect. destruct (negb _); intros [= <- <-]; [reflexivity | lia].
Qed.

Lemma mainloop_iter_shape w m res wt rd evs :
  mainloop_iter w m = (res, wt, rd, evs) ->
  match res with
  | LoopExit code => commit_shape w code evs
  | _ => count_settime evs = O
  end.
Proof.
  unfold mainloop_iter.
  destruct (negb (w_waiting w (m_waits m))); [intros [= <- _ _ <-]; reflexivity|].
  destruct (w_read w (m_reads m)) as [rc g].
  destruct (rc <? 0); [intros [= <- _ _ <-]; reflexivity|].
  destruct (callback w g) as [cevs [code|]] eqn:Hcb; intros [= <- _ _ <-].
  - unfold callback in Hcb.
    destruct (Z.land (set g) TIME_SET =? 0); [discriminate|].
    destruct (status g =? STATUS_NO_FIX); [discriminate|].
    destruct (satellites_used g =? 0); [discriminate|].
    set (tv := mk_timeval _ 0) in Hcb. cbv beta zeta in Hcb.
    exists ([EWaiting; ERead] ++ ctime_log w (tv_sec tv) ++
            [ESyslog LOG_DEBUG (MsgUpdate (timestr_of w (tv_sec tv)) (set g) (status g)
                                  (satellites_used g))]), tv.
    split; [unfold ctime_log; destruct (w_ctime w _); reflexivity|].
    destruct (w_settime w tv =? 0); injection Hcb as <- <-;
      (split; [rewrite <- !app_assoc; reflexivity | reflexivity]).
  - simpl. apply (callback_reject_no_settime w g cevs Hcb).
Qed.

Lemma step_inv c w m : run_inv w m -> run_inv w (step c w m).
Proof.
  destruct m as [p o wt rd tr]; unfold run_inv, step, goto, after_connect; simpl.
  destruct p as [i rc|[r|]|[]| |code| |]; simpl; intros H.
  - destruct (i <=? num_retries c).
    + destruct (attempt_reconnect w o) as [r evs] eqn:A.
      destruct (r >=? 0) eqn:R; simpl.
      * destruct (r <? 0) eqn:R2; [rewrite Z.geb_le in R; apply Z.ltb_lt in R2; lia|].
        rewrite count_settime_app, (startup_no_settime _ H). simpl.
        rewrite (attempt_reconnect_no_settime _ _ _ _ A). reflexivity.
      * assert (Hr : r < 0) by (rewrite Z.geb_leb in R; apply Z.leb_gt in R; lia).
        rewrite (attempt_reconnect_fail _ _ _ _ A Hr).
        destruct (i <? INT_MAX); cbn [m_pc m_trace];
          (apply Forall_app; split; [exact H|]); repeat constructor.
    + rewrite ?app_nil_r. destruct rc as [r|]; simpl; [|exact H].
      destruct (r <? 0); [exact H | apply startup_no_settime; exact H].
  - destruct (r <? 0); simpl.
    + right. split; [reflexivity|]. exists tr. split; [exact H | reflexivity].
    + rewrite count_settime_app, H. destruct (no_detach c); reflexivity.
  - rewrite ?app_nil_r. apply startup_no_settime; exact H.
  - rewrite ?app_nil_r. exact H.
  - destruct (attempt_reconnect w o) as [r evs] eqn:A.
    pose proof (attempt_reconnect_no_settime _ _ _ _ A) as Hevs.
    destruct (r <? 0); simpl; rewrite !count_settime_app, H, Hevs; reflexivity.
  - destruct (mainloop_iter w _) as [[[res wt'] rd'] evs] eqn:M.
    apply mainloop_iter_shape in M. destruct res as [|rc|code']; simpl.
    + rewrite count_settime_app, H, M. reflexivity.
    + destruct (rc <? 1); simpl; rewrite !count_settime_app, H, M; reflexivity.
    + left. destruct M as [pre [tv [Hpre [Hevs Hcode]]]].
      exists (tr ++ pre), tv. split; [rewrite count_settime_app; lia|].
      split; [subst evs; rewrite <- app_assoc; reflexivity | exact Hcode].
  - exact H.
  - exact H.
  - exact H.
Qed.

Lemma run_inv_run c w n m : run_inv w m -> run_inv w (run c w n m).
Proof.
  revert m; induction n as [|n IH]; intros m H; [exact H|].
  simpl. apply IH, step_inv, H.
Qed.

Lemma run_inv_init w : run_inv w init.
Proof. constructor. Qed.

Lemma commit_shape_count w code tr : commit_shape w code tr -> count_settime tr = 1%nat.
Proof.
  intros [pre [tv [Hpre [-> _]]]]. rewrite !count_settime_app, Hpre.
  destruct (w_settime w tv =? 0); reflexivity.
Qed.

Lemma exhausted_shape_count w code tr : exhausted_shape w code tr -> count_settime tr = O.
Proof.
  intros [_ [pre [Hpre ->]]]. rewrite count_settime_app, (startup_no_settime _ Hpre).
  reflexivity.
Qed.

Lemma run_exit c w n code m : m_pc m = PExit code -> run c w n m = m.
Proof.
  intros H; induction n as [|n IH]; [reflexivity|].
  assert (E : step c w m = m) by (unfold step; rewrite H; reflexivity).
  simpl. rewrite E. exact IH.
Qed.

(** C2: over a whole run, [settimeofday] is called at most once.  Once it
    has been called, the process has exited: right after the call
    [gps_close] closes the connection, then the set time is logged and the
    process exits with [EXIT_SUCCESS], or the error is logged and it exits
    with [EXIT_FAILURE]; nothing happens afterwards, so the clock set is
    never retried and no further report is processed. *)
Theorem clock_set_once_then_exit c w n :
  let m := run c w n init in
  (count_settime (m_trace m) <= 1)%nat /\
  (count_settime (m_trace m) = 1%nat ->
     exists code, m_pc m = PExit code /\ commit_shape w code (m_trace m) /\
                  forall k, run c w k m = m).
Proof.
  intros m. pose proof (run_inv_run c w n init (run_inv_init w)) as H.
  fold m in H. unfold run_inv in H.
  destruct (m_pc m) as [i rc|[r|]|st| |code| |] eqn:P.
  - rewrite (startup_no_settime _ H). split; [lia | discriminate].
  - destruct (r <? 0); [rewrite (startup_no_settime _ H)|rewrite H];
      split; [lia | discriminate | lia | discriminate].
  - rewrite (startup_no_settime _ H). split; [lia | discriminate].
  - rewrite H. split; [lia | discriminate].
  - rewrite H. split; [lia | discriminate].
  - destruct H as [H | H].
    + rewrite (commit_shape_count _ _ _ H). split; [lia|].
      intros _. exists code. split; [reflexivity|]. split; [exact H|].
      intros k. apply run_exit with (code := code). exact P.
    + rewrite (exhausted_shape_count _ _ _ H). split; [lia | discriminate].
  - rewrite H. split; [lia | discriminate].
  - rewrite (startup_no_settime _ H). split; [lia | discriminate].
Qed.

(** ** After the first connection *)

Lemma step_post_inv c w m : post_inv w m -> post_inv w (step c w m).
Proof.
  destruct m as [p o wt rd tr]; unfold post_inv, step, goto, after_connect; simpl.
  destruct p as [i rc|rc|[]| |code| |]; simpl; intros H; try contradiction.
  - rewrite ?app_nil_r. exact H.
  - destruct (attempt_reconnect w o) as [r evs] eqn:A.
    pose proof (attempt_reconnect_no_settime _ _ _ _ A) as Hevs.
    destruct (r <? 0); simpl; rewrite !count_settime_app, H, Hevs; reflexivity.
  - destruct (mainloop_iter w _) as [[[res wt'] rd'] evs] eqn:M.
    apply mainloop_iter_shape in M. destruct res as [|rc|code']; simpl.
    + rewrite count_settime_app, H, M. reflexivity.
    + destruct (rc <? 1); simpl; rewrite !count_settime_app, H, M; reflexivity.
    + destruct M as [pre [tv [Hpre [Hevs Hcode]]]].
      exists (tr ++ pre), tv. split; [rewrite count_settime_app; lia|].
      split; [subst evs; rewrite <- app_assoc; reflexivity | exact Hcode].
  - exact H.
Qed.

Lemma run_post_inv c w n m : post_inv w m -> post_inv w (run c w n m).
Proof.
  revert m; induction n as [|n IH]; intros m H; [exact H|].
  simpl. apply IH, step_post_inv, H.
Qed.

Lemma run_reconnect_fail c w n m :
  m_pc m = PMain S_RECONNECT ->
  (forall k, (m_opens m <= k)%nat -> w_open w k <> 0) ->
  run c w n m =
    mk_machine (PMain S_RECONNECT) (m_opens m + n) (m_waits m) (m_reads m)
      (m_trace m ++ concat (repeat [EOpen; ESleep RETRY_SLEEP] n)).
Proof.
  revert m; induction n as [|n IH]; intros m Hpc Hopen.
  - destruct m; simpl in *; subst. rewrite Nat.add_0_r, app_nil_r. reflexivity.
  - assert (E : step c w m =
                mk_machine (PMain S_RECONNECT) (S (m_opens m)) (m_waits m) (m_reads m)
                  (m_trace m ++ [EOpen; ESleep RETRY_SLEEP])).
    { unfold step, attempt_reconnect, after_connect. rewrite Hpc.
      destruct (w_open w (m_opens m) =? 0) eqn:O.
      - apply Z.eqb_eq in O. exfalso. exact (Hopen (m_opens m) (le_n _) O).
      - reflexivity. }
    simpl. rewrite E, IH; simpl.
    + rewrite <- app_assoc, Nat.add_succ_r. reflexivity.
    + reflexivity.
    + intros k Hk. apply Hopen. lia.
Qed.

(** C8: past the first connection the program never gives up: from
    [S_RECONNECT], while gpsd stays unreachable, every step is one failed
    [gps_open] followed by [sleep(RETRY_SLEEP)], for ever; from [S_CONNECTED]
    or [S_RECONNECT] the only exit is the one after a clock set; and over a
    whole run the only exits are that one and the startup loop giving up. *)
Theorem reconnect_never_gives_up :
  (forall c w m n,
     m_pc m = PMain S_RECONNECT ->
     (forall k, (m_opens m <= k)%nat -> w_open w k <> 0) ->
     run c w n m =
       mk_machine (PMain S_RECONNECT) (m_opens m + n) (m_waits m) (m_reads m)
         (m_trace m ++ concat (repeat [EOpen; ESleep RETRY_SLEEP] n))) /\
  (forall c w m n code,
     post_inv w m -> m_pc (run c w n m) = PExit code ->
     commit_shape w code (m_trace (run c w n m))) /\
  (forall c w n code,
     m_pc (run c w n init) = PExit code ->
     commit_shape w code (m_trace (run c w n init)) \/
     exhausted_shape w code (m_trace (run c w n init))).
Proof.
  split; [intros c w m n; apply run_reconnect_fail|]. split.
  - intros c w m n code Hm Hpc. pose proof (run_post_inv c w n m Hm) as H.
    unfold post_inv in H. rewrite Hpc in H. exact H.
  - intros c w n code Hpc. pose proof (run_inv_run c w n init (run_inv_init w)) as H.
    unfold run_inv in H. rewrite Hpc in H. exact H.
Qed.

Lemma reconnect_never_gives_up_witness :
  run default_config world_down 3 in_reconnect =
    mk_machine (PMain S_RECONNECT) 8 2 1
      [EOpen; ESleep RETRY_SLEEP; EOpen; ESleep RETRY_SLEEP; EOpen; ESleep RETRY_SLEEP].
Proof.
  destruct reconnect_never_gives_up as [H _].
  rewrite (H default_config world_down in_reconnect 3%nat).
  - reflexivity.
  - reflexivity.
  - intros k _. simpl. discriminate.
Defined.

(** ** Sleep intervals *)

Lemma sleeps_are_app d a b : sleeps_are d a -> sleeps_are d b -> sleeps_are d (a ++ b).
Proof. intros Ha Hb s Hs. apply in_app_or in Hs as [Hs|Hs]; auto. Qed.

Lemma sleeps_are_nil d : sleeps_are d [].
Proof. intros s []. Qed.

Lemma sleeps_are_no_sleep d tr :
  Forall (fun e => forall s, e <> ESleep s) tr -> sleeps_are d tr.
Proof.
  intros H s Hs. rewrite Forall_forall in H. exfalso. exact (H _ Hs s eq_refl).
Qed.

Lemma callback_no_sleep w g :
  Forall (fun e => forall s, e <> ESleep s) (fst (callback w g)).
Proof.
  unfold callback, ctime_log.
  destruct (Z.land (set g) TIME_SET =? 0); [constructor|].
  destruct (w_ctime w _);
    (destruct (status g =? STATUS_NO_FIX); [repeat constructor; discriminate|]);
    (destruct (satellites_used g =? 0); [repeat constructor; discriminate|]);
    destruct (w_settime w _ =? 0); repeat constructor; discriminate.
Qed.

Lemma mainloop_iter_no_sleep w m res wt rd evs :
  mainloop_iter w m = (res, wt, rd, evs) -> sleeps_are RETRY_SLEEP evs.
Proof.
  intros M. apply sleeps_are_no_sleep. revert M. unfold mainloop_iter.
  destruct (negb (w_waiting w (m_waits m)));
    [intros [= _ _ _ <-]; repeat constructor; discriminate|].
  destruct (w_read w (m_reads m)) as [rc g].
  destruct (rc <? 0); [intros [= _ _ _ <-]; repeat constructor; discriminate|].
  pose proof (callback_no_sleep w g) as Hcb.
  destruct (callback w g) as [cevs ex]; simpl in Hcb.
  destruct ex; intros [= _ _ _ <-];
    (constructor; [discriminate|]; constructor; [discriminate | exact Hcb]).
Qed.

(** Past the startup loop, [step] does not read the configuration. *)
Lemma step_post_startup_config c c' w m :
  post_startup (m_pc m) = true -> step c w m = step c' w m.
Proof. unfold step. destruct (m_pc m) as [| |[]| | | |]; try discriminate; reflexivity. Qed.

Lemma step_post_startup c w m :
  post_startup (m_pc m) = true ->
  post_startup (m_pc (step c w m)) = true /\
  exists evs, m_trace (step c w m) = m_trace m ++ evs /\ sleeps_are RETRY_SLEEP evs.
Proof.
  unfold step. destruct m as [p o wt rd tr]; simpl.
  destruct p as [| |[]| |code| |]; try discriminate; intros _; unfold goto, after_connect.
  - split; [reflexivity|]. exists []. split; [reflexivity | apply sleeps_are_nil].
  - unfold attempt_reconnect.
    destruct (negb (w_open w o =? 0)); simpl;
      (split; [reflexivity|]); eexists; (split; [reflexivity|]);
      intros s Hs; simpl in Hs; intuition congruence.
  - destruct (mainloop_iter w _) as [[[res wt'] rd'] evs] eqn:M.
    apply mainloop_iter_no_sleep in M. destruct res as [|rc|code']; simpl.
    + split; [reflexivity|]. exists evs. split; [reflexivity | exact M].
    + destruct (rc <? 1); (split; [reflexivity|]); eexists; (split; [reflexivity|]);
        (apply sleeps_are_app; [exact M|]); intros s Hs; simpl in Hs; intuition congruence.
    + split; [reflexivity|]. exists evs. split; [reflexivity | exact M].
  - split; [reflexivity|]. exists []. split; [symmetry; apply app_nil_r | apply sleeps_are_nil].
Qed.

Lemma step_startup_sleeps c w m : startup_sleeps c m -> startup_sleeps c (step c w m).
Proof.
  destruct m as [p o wt rd tr]; unfold startup_sleeps, step, goto, after_connect; simpl.
  destruct p as [i rc|[r|]|[]| |code| |]; simpl; intros H; try exact I.
  - destruct (i <=? num_retries c); simpl; [|rewrite app_nil_r; exact H].
    unfold attempt_reconnect.
    destruct (negb (w_open w o =? 0)); simpl; [destruct (i <? INT_MAX)|];
      (apply sleeps_are_app; [exact H|]); intros s Hs; simpl in Hs; intuition congruence.
  - destruct (r <? 0); [exact I|]. destruct (no_detach c); exact I.
  - destruct (attempt_reconnect w o) as [r evs]. destruct (r <? 0); exact I.
  - destruct (mainloop_iter w _) as [[[res wt'] rd'] evs].
    destruct res as [|rc|code']; [exact I| |exact I].
    destruct (rc <? 1); exact I.
  - exact H.
Qed.

Lemma run_post_startup c c' w n m :
  post_startup (m_pc m) = true ->
  run c w n m = run c' w n m /\
  exists evs, m_trace (run c w n m) = m_trace m ++ evs /\ sleeps_are RETRY_SLEEP evs.
Proof.
  revert m; induction n as [|n IH]; intros m Hm.
  - split; [reflexivity|]. exists []. split; [symmetry; apply app_nil_r | apply sleeps_are_nil].
  - simpl. rewrite (step_post_startup_config c c' w m Hm).
    destruct (step_post_startup c' w m Hm) as [Hm' [evs1 [Htr1 Hs1]]].
    destruct (IH (step c' w m) Hm') as [Heq [evs2 [Htr2 Hs2]]].
    split; [exact Heq|]. exists (evs1 ++ evs2). split.
    + rewrite Htr2, Htr1, app_assoc. reflexivity.
    + apply sleeps_are_app; assumption.
Qed.

Lemma run_startup_sleeps c w n m : startup_sleeps c m -> startup_sleeps c (run c w n m).
Proof.
  revert m; induction n as [|n IH]; intros m Hm; [exact Hm|].
  simpl. apply IH, step_startup_sleeps, Hm.
Qed.

(** C9: after a mid-stream loss of the connection, the sleep between two
    failed reconnects is always [RETRY_SLEEP] = 1 second: past the startup
    loop a run does not depend on [retry_sleep] (the [-s] option), and
    every [sleep] it makes lasts [RETRY_SLEEP]; [retry_sleep] is the length
    of the sleeps of the startup loop. *)
Theorem reconnect_sleep_is_constant c r w n m :
  post_startup (m_pc m) = true ->
  run c w n m = run (mk_config (num_retries c) r (no_detach c)) w n m /\
  (exists evs, m_trace (run c w n m) = m_trace m ++ evs /\ sleeps_are RETRY_SLEEP evs) /\
  (forall k, startup_sleeps c (run c w k init)).
Proof.
  intros Hm.
  destruct (run_post_startup c (mk_config (num_retries c) r (no_detach c)) w n m Hm)
    as [Heq Hevs].
  split; [exact Heq|]. split; [exact Hevs|].
  intros k. apply run_startup_sleeps. apply sleeps_are_nil.
Qed.

Lemma reconnect_sleep_is_constant_witness :
  run config_s7 world_down 4 in_reconnect =
    run (mk_config NUM_RETRIES 30 false) world_down 4 in_reconnect /\
  (exists evs, m_trace (run config_s7 world_down 4 in_reconnect) = m_trace in_reconnect ++ evs
               /\ sleeps_are RETRY_SLEEP evs) /\
  (forall k, startup_sleeps config_s7 (run config_s7 world_down k init)).
Proof.
  apply (reconnect_sleep_is_constant config_s7 30 world_down 4%nat in_reconnect).
  reflexivity.
Defined.

(** ** The startup loop *)

Lemma step_rc_assigned c w m :
  1 <= num_retries c -> rc_assigned m -> rc_assigned (step c w m).
Proof.
  intros Hn. destruct m as [p o wt rd tr].
  unfold rc_assigned, step, goto, after_connect; simpl.
  destruct p as [i rc|[r|]|[]| |code| |]; simpl; intros H; try exact I; try contradiction.
  - destruct (i <=? num_retries c) eqn:L.
    + destruct (attempt_reconnect w o) as [r evs].
      destruct (r >=? 0); simpl; [discriminate|].
      destruct (i <? INT_MAX); [discriminate | exact I].
    + simpl. intros ->. apply Z.leb_gt in L. specialize (H eq_refl). lia.
  - destruct (r <? 0); [exact I|]. exact I.
  - destruct (attempt_reconnect w o) as [r evs]. destruct (r <? 0); exact I.
  - destruct (mainloop_iter w _) as [[[res wt'] rd'] evs].
    destruct res as [|rc|code']; [exact I| |exact I].
    destruct (rc <? 1); exact I.
Qed.

(** C10: with a retry count below 1 ([-n 0]) the startup loop makes no
    connect attempt and the test [if (rc < 0)] reads [rc] before it was
    ever assigned; with a retry count of at least 1 this never happens. *)
Theorem startup_rc_uninitialized c w :
  (num_retries c < 1 ->
     step c w init = mk_machine (PAfterStartup None) 0 0 0 [] /\
     run c w 2 init = mk_machine PUndef 0 0 0 []) /\
  (1 <= num_retries c -> forall n, m_pc (run c w n init) <> PUndef).
Proof.
  split.
  - intros Hn.
    assert (E : step c w init = mk_machine (PAfterStartup None) 0 0 0 []).
    { unfold step, init; simpl.
      destruct (1 <=? num_retries c) eqn:L; [apply Z.leb_le in L; lia|].
      reflexivity. }
    split; [exact E|]. simpl. rewrite E. reflexivity.
  - intros Hn n.
    assert (H : rc_assigned (run c w n init)).
    { assert (H0 : rc_assigned init) by (intros _; reflexivity).
      revert H0. generalize init.
      induction n as [|n IH]; intros m Hm; [exact Hm|].
      simpl. apply IH, step_rc_assigned; assumption. }
    unfold rc_assigned in H. intros E. rewrite E in H. exact H.
Qed.

Lemma startup_rc_uninitialized_witness :
  step config_n0 world_down init = mk_machine (PAfterStartup None) 0 0 0 [] /\
  run config_n0 world_down 2 init = mk_machine PUndef 0 0 0 [].
Proof.
  destruct (startup_rc_uninitialized config_n0 world_down) as [H _].
  apply H. simpl. lia.
Defined.

(** C3, at [-n 3] with gpsd never reachable: the startup loop makes three
    connect attempts, but it sleeps after each failed attempt, the last one
    included, so there are three sleeps before the process exits with
    [EXIT_FAILURE]; no clock is set. *)
Theorem startup_exhausted_three_sleeps :
  run config_n3 world_down 5 init =
    mk_machine (PExit EXIT_FAILURE) 3 0 0
      [EAttempt 1; EOpen; ESleep 1; EAttempt 2; EOpen; ESleep 1;
       EAttempt 3; EOpen; ESleep 1;
       ESyslog LOG_ERR (MsgNoGpsd 111); EExit EXIT_FAILURE].
Proof. reflexivity. Qed.

Lemma clock_set_once_then_exit_witness :
  let m := run default_config (world_feed fix_ok 0) 4 init in
  count_settime (m_trace m) = 1%nat /\
  exists code, m_pc m = PExit code /\ commit_shape (world_feed fix_ok 0) code (m_trace m) /\
               forall k, run default_config (world_feed fix_ok 0) k m = m.
Proof.
  destruct (clock_set_once_then_exit default_config (world_feed fix_ok 0) 4%nat) as [_ H].
  split; [vm_compute; reflexivity|]. apply H. vm_compute. reflexivity.
Defined.

(** ** osmo_daemonize *)

(** X1: in the process that goes on running, [osmo_daemonize] returns 0 or
    a negative value.  It returns 0 exactly when the parent is not [init],
    the process is the child of a successful [fork], and [setsid] and
    [chdir("/tmp")] succeed; only then are stdin, stdout and stderr
    redirected to /dev/null.  When the parent already is [init] it returns
    [-EEXIST] without forking. *)
Theorem osmo_daemonize_return o evs rc :
  osmo_daemonize o = (evs, DReturn rc) ->
  rc <= 0 /\
  (rc = 0 <-> getppid_rc o <> 1 /\ fork_rc o = 0 /\ 0 <= setsid_rc o /\ 0 <= chdir_rc o) /\
  (In (OFreopen "/dev/null"%string "r"%string "stdin"%string) evs <-> rc = 0) /\
  (getppid_rc o = 1 -> rc = - EEXIST /\ ~ In OFork evs).
Proof.
  unfold osmo_daemonize, EEXIST.
  destruct (getppid_rc o =? 1) eqn:P.
  - apply Z.eqb_eq in P. intros [= <- <-].
    split; [lia|]. split; [split; [lia | intros [H _]; contradiction]|].
    split; [split; [intros [H|[]]; discriminate | lia]|].
    intros _. split; [reflexivity | intros [H|[]]; discriminate].
  - apply Z.eqb_neq in P.
    destruct (fork_rc o <? 0) eqn:F.
    { apply Z.ltb_lt in F. intros [= <- <-].
      split; [lia|]. split; [split; [lia | intros (_ & H & _); lia]|].
      split; [split; [intros [H|[H|[]]]; discriminate | lia]|]. intros; contradiction. }
    destruct (fork_rc o >? 0) eqn:F'; [discriminate|].
    apply Z.ltb_ge in F. rewrite Z.gtb_ltb in F'. apply Z.ltb_ge in F'.
    destruct (setsid_rc o <? 0) eqn:S.
    { apply Z.ltb_lt in S. intros [= <- <-].
      split; [lia|]. split; [split; [lia | intros (_ & _ & H & _); lia]|].
      split; [split; [simpl; intros H; repeat destruct H as [H|H]; try discriminate; contradiction | lia]|].
      intros; contradiction. }
    apply Z.ltb_ge in S.
    destruct (chdir_rc o <? 0) eqn:C.
    { apply Z.ltb_lt in C. intros [= <- <-].
      split; [lia|]. split; [split; [lia | intros (_ & _ & _ & H); lia]|].
      split; [split; [simpl; intros H; repeat destruct H as [H|H]; try discriminate; contradiction | lia]|].
      intros; contradiction. }
    apply Z.ltb_ge in C. intros [= <- <-].
    split; [lia|]. split; [split; [intros _; repeat split; lia | reflexivity]|].
    split; [split; [reflexivity | intros _; simpl; tauto]|]. intros; contradiction.
Qed.

Lemma osmo_daemonize_return_witness :
  osmo_daemonize os_child_ok = (fst (osmo_daemonize os_child_ok), DReturn 0) /\
  0 <= 0 /\
  (0 = 0 <-> getppid_rc os_child_ok <> 1 /\ fork_rc os_child_ok = 0 /\
             0 <= setsid_rc os_child_ok /\ 0 <= chdir_rc os_child_ok) /\
  (In (OFreopen "/dev/null"%string "r"%string "stdin"%string)
      (fst (osmo_daemonize os_child_ok)) <-> 0 = 0) /\
  (getppid_rc os_child_ok = 1 -> 0 = - EEXIST /\ ~ In OFork (fst (osmo_daemonize os_child_ok))).
Proof.
  assert (E : osmo_daemonize os_child_ok = (fst (osmo_daemonize os_child_ok), DReturn 0))
    by reflexivity.
  split; [exact E|]. exact (osmo_daemonize_return os_child_ok _ 0 E).
Defined.

(** X2: the only way [osmo_daemonize] ends the calling process is in the
    parent after a successful [fork]: it exits with status 0 right away,
    before [umask], [setsid] or [chdir]. *)
Theorem osmo_daemonize_parent_exits o evs code :
  osmo_daemonize o = (evs, DExit code) ->
  code = 0 /\ getppid_rc o <> 1 /\ 0 < fork_rc o /\ evs = [OGetppid; OFork; OExit 0].
Proof.
  unfold osmo_daemonize.
  destruct (getppid_rc o =? 1) eqn:P; [discriminate|]. apply Z.eqb_neq in P.
  destruct (fork_rc o <? 0); [discriminate|].
  destruct (fork_rc o >? 0) eqn:F.
  - intros [= <- <-]. rewrite Z.gtb_ltb, Z.ltb_lt in F. repeat split; auto.
  - destruct (setsid_rc o <? 0); [discriminate|].
    destruct (chdir_rc o <? 0); discriminate.
Qed.

Lemma osmo_daemonize_parent_exits_witness :
  0 = 0 /\ getppid_rc os_parent <> 1 /\ 0 < fork_rc os_parent /\
  fst (osmo_daemonize os_parent) = [OGetppid; OFork; OExit 0].
Proof.
  apply (osmo_daemonize_parent_exits os_parent (fst (osmo_daemonize os_parent)) 0).
  reflexivity.
Defined.

(** ** Command line *)

(** X3: the option loop of [main]: [num_retries] and [retry_sleep] take the
    [atoi] value of the last [-n] and [-s] argument, or keep their value
    when the option is absent; [no_detach] is set by any [-d]; other
    options change nothing. *)
Theorem parse_opts_last_wins c opts c' :
  parse_opts c opts = Some c' ->
  (forall a, last_optarg "n"%char opts = Some a -> atoi a = Some (num_retries c')) /\
  (last_optarg "n"%char opts = None -> num_retries c' = num_retries c) /\
  (forall a, last_optarg "s"%char opts = Some a -> atoi a = Some (retry_sleep c')) /\
  (last_optarg "s"%char opts = None -> retry_sleep c' = retry_sleep c) /\
  no_detach c' = no_detach c || existsb (fun p => Ascii.eqb (fst p) "d"%char) opts.
Proof.
  revert c. induction opts as [|[ch a] r IH]; intros c H.
  - injection H as <-. simpl. rewrite orb_false_r.
    repeat split; intros; discriminate.
  - cbn [parse_opts last_optarg existsb fst] in H |- *.
    destruct (Ascii.eqb ch "n"%char) eqn:En.
    + apply Ascii.eqb_eq in En; subst ch.
      destruct (atoi a) as [v|] eqn:A; [|discriminate].
      destruct (IH _ H) as (H1 & H2 & H3 & H4 & H5); simpl in *.
      repeat split.
      * intros a'. destruct (last_optarg "n"%char r); [apply H1|].
        intros [= <-]. rewrite A, H2 by reflexivity. reflexivity.
      * destruct (last_optarg "n"%char r); discriminate.
      * intros a'. destruct (last_optarg "s"%char r); [apply H3 | discriminate].
      * destruct (last_optarg "s"%char r); [discriminate|]. intros _. apply H4, eq_refl.
      * exact H5.
    + destruct (Ascii.eqb ch "s"%char) eqn:Es.
      * apply Ascii.eqb_eq in Es; subst ch.
        destruct (atoi a) as [v|] eqn:A; [|discriminate].
        destruct (IH _ H) as (H1 & H2 & H3 & H4 & H5); simpl in *.
        repeat split.
        -- intros a'. destruct (last_optarg "n"%char r); [apply H1 | discriminate].
        -- destruct (last_optarg "n"%char r); [discriminate|]. intros _. apply H2, eq_refl.
        -- intros a'. destruct (last_optarg "s"%char r); [apply H3|].
           intros [= <-]. rewrite A, H4 by reflexivity. reflexivity.
        -- destruct (last_optarg "s"%char r); discriminate.
        -- exact H5.
      * destruct (Ascii.eqb ch "d"%char) eqn:Ed.
        -- apply Ascii.eqb_eq in Ed; subst ch.
           destruct (IH _ H) as (H1 & H2 & H3 & H4 & H5); simpl in *.
           repeat split.
           ++ intros a'. destruct (last_optarg "n"%char r); [apply H1 | discriminate].
           ++ destruct (last_optarg "n"%char r); [discriminate|]. intros _. apply H2, eq_refl.
           ++ intros a'. destruct (last_optarg "s"%char r); [apply H3 | discriminate].
           ++ destruct (last_optarg "s"%char r); [discriminate|]. intros _. apply H4, eq_refl.
           ++ rewrite H5, orb_true_r. reflexivity.
        -- destruct (IH _ H) as (H1 & H2 & H3 & H4 & H5).
           simpl.
           repeat split.
           ++ intros a'. destruct (last_optarg "n"%char r); [apply H1 | discriminate].
           ++ destruct (last_optarg "n"%char r); [discriminate|]. intros _. apply H2, eq_refl.
           ++ intros a'. destruct (last_optarg "s"%char r); [apply H3 | discriminate].
           ++ destruct (last_optarg "s"%char r); [discriminate|]. intros _. apply H4, eq_refl.
           ++ exact H5.
Qed.

Lemma parse_opts_last_wins_witness :
  let opts := [("n"%char, "5"%string); ("d"%char, ""%string);
               ("n"%char, " 7x"%string); ("x"%char, ""%string)] in
  (forall a, last_optarg "n"%char opts = Some a -> atoi a = Some 7) /\
  (last_optarg "n"%char opts = None -> 7 = num_retries default_config) /\
  (forall a, last_optarg "s"%char opts = Some a -> atoi a = Some RETRY_SLEEP) /\
  (last_optarg "s"%char opts = None -> RETRY_SLEEP = retry_sleep default_config) /\
  true = no_detach default_config || existsb (fun p => Ascii.eqb (fst p) "d"%char) opts.
Proof.
  intros opts.
  exact (parse_opts_last_wins default_config opts (mk_config 7 RETRY_SLEEP true) eq_refl).
Defined.

Lemma digit_char d :
  0 <= d <= 9 ->
  isdigit (ascii_of_nat (Z.to_nat (48 + d))) = true /\
  digit_value (ascii_of_nat (Z.to_nat (48 + d))) = d /\
  isspace (ascii_of_nat (Z.to_nat (48 + d))) = false.
Proof.
  intros Hd. unfold isdigit, digit_value, isspace.
  rewrite nat_ascii_embedding by lia. rewrite Z2Nat.id by lia.
  repeat split.
  - apply andb_true_intro; split; apply Z.leb_le; lia.
  - lia.
  - apply orb_false_intro; [apply Z.eqb_neq; lia|].
    apply andb_false_intro2. apply Z.leb_gt. lia.
Qed.

Lemma digits_value_digit_string acc ds rest :
  Forall (fun d => 0 <= d <= 9) ds ->
  match rest with String ch _ => isdigit ch = false | EmptyString => True end ->
  digits_value acc (digit_string ds ++ rest)%string =
    fold_left (fun a d => a * 10 + d) ds acc.
Proof.
  revert acc. induction ds as [|d ds IH]; intros acc Hds Hrest.
  - destruct rest as [|ch r]; [reflexivity|].
    cbn [digit_string append digits_value]. rewrite Hrest. reflexivity.
  - inversion Hds as [|? ? Hd Hds']; subst.
    destruct (digit_char d Hd) as (H1 & H2 & _).
    cbn [digit_string append digits_value]. rewrite H1, H2. apply IH; assumption.
Qed.

(** X4: [atoi] reads the longest prefix of decimal digits: on a string made
    of a nonempty run of digits followed by anything that does not start
    with a digit, it yields the number those digits denote when it fits in
    an [int] (and is undefined otherwise). *)
Theorem atoi_digit_prefix ds rest :
  ds <> [] -> Forall (fun d => 0 <= d <= 9) ds ->
  match rest with String ch _ => isdigit ch = false | EmptyString => True end ->
  atoi (digit_string ds ++ rest)%string =
    if decimal_value ds <=? INT_MAX then Some (decimal_value ds) else None.
Proof.
  intros Hne Hds Hrest.
  destruct ds as [|d ds']; [contradiction|].
  inversion Hds as [|? ? Hd _]; subst.
  destruct (digit_char d Hd) as (H1 & _ & H3).
  assert (Hpos : 0 <= decimal_value (d :: ds')).
  { unfold decimal_value.
    assert (G : forall l a, 0 <= a -> Forall (fun d => 0 <= d <= 9) l ->
                            0 <= fold_left (fun a d => a * 10 + d) l a).
    { induction l as [|x l IHl]; intros a Ha Hl; [exact Ha|].
      inversion Hl; subst. simpl. apply IHl; [lia | assumption]. }
    apply G; [lia | exact Hds]. }
  unfold atoi, strtol10. cbn [digit_string append].
  set (ch := ascii_of_nat (Z.to_nat (48 + d))) in *.
  cbn [skip_space]. rewrite H3.
  assert (Hm : Ascii.eqb ch "-"%char = false).
  { apply Ascii.eqb_neq. intros E. rewrite E in H1. discriminate. }
  assert (Hp : Ascii.eqb ch "+"%char = false).
  { apply Ascii.eqb_neq. intros E. rewrite E in H1. discriminate. }
  rewrite Hm, Hp.
  change (String ch (digit_string ds' ++ rest))%string
    with (digit_string (d :: ds') ++ rest)%string.
  rewrite (digits_value_digit_string 0 (d :: ds') rest Hds Hrest).
  fold (decimal_value (d :: ds')).
  assert (Hmin : (INT_MIN <=? decimal_value (d :: ds')) = true)
    by (apply Z.leb_le; unfold INT_MIN; lia).
  rewrite Hmin. reflexivity.
Qed.

Lemma atoi_digit_prefix_witness :
  [4; 2] <> [] /\ Forall (fun d => 0 <= d <= 9) [4; 2] /\
  atoi (digit_string [4; 2] ++ "s")%string = Some 42.
Proof.
  assert (H1 : [4; 2] <> []) by discriminate.
  assert (H2 : Forall (fun d => 0 <= d <= 9) [4; 2]) by (repeat constructor; lia).
  split; [exact H1|]. split; [exact H2|].
  rewrite (atoi_digit_prefix [4; 2] "s"%string H1 H2 eq_refl). reflexivity.
Defined.

(** X5: a [-n] argument whose first character after leading white space
    is neither a digit nor a sign (or that is empty or white space only),
    such as [-n abc], makes [atoi] return 0: the retry
    count is 0, the startup loop makes no connect attempt, and [main] then
    reads [rc] uninitialized. *)
Theorem non_numeric_retries_uninitialized arg w :
  match skip_space arg with
  | String ch _ => isdigit ch = false /\ ch <> "-"%char /\ ch <> "+"%char
  | EmptyString => True
  end ->
  exists c', parse_opts default_config [("n"%char, arg)] = Some c' /\
             num_retries c' = 0 /\
             m_pc (run c' w 2 init) = PUndef /\ m_opens (run c' w 2 init) = O.
Proof.
  intros H.
  assert (A : atoi arg = Some 0).
  { unfold atoi, strtol10. destruct (skip_space arg) as [|ch r]; [reflexivity|].
    destruct H as (Hd & Hm & Hp).
    apply Ascii.eqb_neq in Hm, Hp. rewrite Hm, Hp. simpl. rewrite Hd. reflexivity. }
  exists (mk_config 0 RETRY_SLEEP false). simpl. rewrite A.
  repeat split.
Qed.

Lemma non_numeric_retries_uninitialized_witness :
  exists c', parse_opts default_config [("n"%char, " abc"%string)] = Some c' /\
             num_retries c' = 0 /\
             m_pc (run c' world_down 2 init) = PUndef /\ m_opens (run c' world_down 2 init) = O.
Proof.
  apply non_numeric_retries_uninitialized. vm_compute.
  split; [reflexivity|]. split; discriminate.
Defined.

(** ** Runs of the startup loop and of the reconnect loop *)

Lemma run_add c w a b m : run c w (a + b) m = run c w b (run c w a m).
Proof. revert m; induction a as [|a IH]; intros m; [reflexivity|]. apply IH. Qed.

Lemma run_startup_fails c w j m i rc :
  m_pc m = PStartup i rc ->
  i + Z.of_nat j - 1 <= num_retries c -> i + Z.of_nat j - 1 < INT_MAX ->
  (forall t, (t < j)%nat -> w_open w (m_opens m + t) <> 0) ->
  run c w j m =
    mk_machine (match j with O => PStartup i rc | S _ => PStartup (i + Z.of_nat j) (Some (-1)) end)
      (m_opens m + j) (m_waits m) (m_reads m) (m_trace m ++ fail_blocks c i j).
Proof.
  revert m i rc; induction j as [|j IH]; intros m i rc Hpc Hn Hmax Hopen.
  - destruct m; simpl in *; subst. rewrite Nat.add_0_r, app_nil_r. reflexivity.
  - assert (E : step c w m =
                mk_machine (PStartup (i + 1) (Some (-1))) (S (m_opens m)) (m_waits m)
                  (m_reads m) (m_trace m ++ [EAttempt i; EOpen; ESleep (retry_sleep c)])).
    { unfold step, attempt_reconnect, after_connect. rewrite Hpc.
      destruct (i <=? num_retries c) eqn:L; [|apply Z.leb_gt in L; lia].
      destruct (w_open w (m_opens m) =? 0) eqn:O.
      - apply Z.eqb_eq in O. specialize (Hopen 0%nat ltac:(lia)).
        rewrite Nat.add_0_r in Hopen. contradiction.
      - cbn [negb]. destruct (i <? INT_MAX) eqn:M; [reflexivity|].
        apply Z.ltb_ge in M. lia. }
    simpl. rewrite E, (IH _ (i + 1) (Some (-1))); simpl.
    + rewrite <- app_assoc, Nat.add_succ_r. f_equal.
      destruct j; f_equal; lia.
    + reflexivity.
    + lia.
    + lia.
    + intros t Ht. assert (Hx := Hopen (S t) ltac:(lia)). rewrite Nat.add_succ_r in Hx. simpl. exact Hx.
Qed.

(** X6: when the first [j] connect attempts of the startup loop fail and
    attempt [j+1] (within the retry count) succeeds, [main] has made
    exactly [j+1] [gps_open] calls and [j] sleeps of [retry_sleep] seconds,
    streams from gpsd, detaches unless [-d] was given, and enters
    [S_CONNECTED]. [num_retries] is an [int] (as [parse_opts] produces
    it), so it is at most [INT_MAX]. *)
Theorem startup_connects_at_attempt c w j :
  num_retries c <= INT_MAX ->
  Z.of_nat (S j) <= num_retries c ->
  (forall t, (t < j)%nat -> w_open w t <> 0) -> w_open w j = 0 ->
  run c w (j + 2) init =
    mk_machine (PMain S_CONNECTED) (S j) 0 0
      (fail_blocks c 1 j ++
       [EAttempt (1 + Z.of_nat j); EOpen; ESyslog LOG_INFO MsgReconnected; EStream] ++
       (if no_detach c then [] else [EDaemonize])).
Proof.
  intros Hmax Hn Hfail Hok. rewrite run_add.
  rewrite (run_startup_fails c w j init 1 None eq_refl ltac:(lia) ltac:(lia) Hfail).
  assert (Hs : forall rc tr,
    run c w 2 (mk_machine (PStartup (1 + Z.of_nat j) rc) j 0 0 tr) =
      mk_machine (PMain S_CONNECTED) (S j) 0 0
        (tr ++ [EAttempt (1 + Z.of_nat j); EOpen; ESyslog LOG_INFO MsgReconnected; EStream] ++
         (if no_detach c then [] else [EDaemonize]))).
  { intros rc tr.
    assert (E1 : step c w (mk_machine (PStartup (1 + Z.of_nat j) rc) j 0 0 tr) =
      mk_machine (PAfterStartup (Some 0)) (S j) 0 0
        (tr ++ [EAttempt (1 + Z.of_nat j); EOpen; ESyslog LOG_INFO MsgReconnected; EStream])).
    { unfold step, attempt_reconnect, after_connect. cbn [m_pc m_opens m_trace m_waits m_reads].
      destruct (1 + Z.of_nat j <=? num_retries c) eqn:L; [|apply Z.leb_gt in L; lia].
      rewrite Hok. reflexivity. }
    assert (E2 : forall tr', step c w (mk_machine (PAfterStartup (Some 0)) (S j) 0 0 tr') =
      mk_machine (PMain S_CONNECTED) (S j) 0 0
        (tr' ++ (if no_detach c then [] else [EDaemonize]))).
    { intros tr'. reflexivity. }
    cbn [run]. rewrite E1, E2, <- app_assoc. reflexivity. }
  cbn [m_opens m_waits m_reads m_trace init]. rewrite Nat.add_0_l.
  destruct j as [|j']; [apply (Hs None) | apply Hs].
Qed.

Lemma startup_connects_at_attempt_witness :
  run default_config (mk_world (fun k => if (k <? 2)%nat then -1 else 0)
                        (fun _ => false) (fun _ => (0, fix_ok)) (fun _ => 0) 111
                        ctime_ok 64 x86_64_oob) (2 + 2) init =
    mk_machine (PMain S_CONNECTED) 3 0 0
      (fail_blocks default_config 1 2 ++
       [EAttempt (1 + Z.of_nat 2); EOpen; ESyslog LOG_INFO MsgReconnected; EStream] ++
       [EDaemonize]).
Proof.
  apply (startup_connects_at_attempt default_config _ 2).
  - vm_compute. discriminate.
  - vm_compute. discriminate.
  - intros t Ht. simpl. destruct (t <? 2)%nat eqn:E; [discriminate|].
    apply Nat.ltb_ge in E. lia.
  - reflexivity.
Defined.



Lemma fail_blocks_snoc c i j :
  fail_blocks c i (S j) =
    fail_blocks c i j ++ [EAttempt (i + Z.of_nat j); EOpen; ESleep (retry_sleep c)].
Proof.
  revert i; induction j as [|j IH]; intros i.
  - cbn [fail_blocks]. rewrite Z.add_0_r. reflexivity.
  - change (fail_blocks c i (S (S j))) with
      ([EAttempt i; EOpen; ESleep (retry_sleep c)] ++ fail_blocks c (i + 1) (S j)).
    rewrite IH. cbn [fail_blocks]. rewrite <- app_assoc.
    do 4 f_equal. lia.
Qed.

(** X13: the counter [i] of the startup loop is an [int]: with
    [num_retries = INT_MAX] and gpsd never reachable, the loop makes
    [INT_MAX] connect attempts, sleeping after each, and then the [i++]
    after the last one overflows, which C leaves undefined. *)
Theorem startup_counter_overflows c w n :
  num_retries c = INT_MAX -> Z.of_nat n = INT_MAX ->
  (forall t, (t < n)%nat -> w_open w t <> 0) ->
  run c w n init = mk_machine POverflow n 0 0 (fail_blocks c 1 n).
Proof.
  intros Hn Hnat Hfail.
  assert (Hv : INT_MAX = 2147483647) by reflexivity.
  destruct n as [|n']; [lia|].
  assert (H1 : 1 + Z.of_nat n' - 1 <= num_retries c) by lia.
  assert (H2 : 1 + Z.of_nat n' - 1 < INT_MAX) by lia.
  assert (H3 : forall t, (t < n')%nat -> w_open w (m_opens init + t) <> 0)
    by (intros t Ht; cbn [m_opens init]; apply Hfail; lia).
  replace (S n') with (n' + 1)%nat by lia. rewrite run_add.
  rewrite (run_startup_fails c w n' init 1 None eq_refl H1 H2 H3).
  destruct n' as [|n'']; [lia|].
  cbn [m_opens m_waits m_reads m_trace init]. rewrite Nat.add_0_l, app_nil_l.
  assert (E : step c w (mk_machine (PStartup (1 + Z.of_nat (S n'')) (Some (-1))) (S n'') 0 0
                          (fail_blocks c 1 (S n''))) =
              mk_machine POverflow (S (S n'')) 0 0
                (fail_blocks c 1 (S n'') ++
                 [EAttempt (1 + Z.of_nat (S n'')); EOpen; ESleep (retry_sleep c)])).
  { unfold step, attempt_reconnect, after_connect. cbn [m_pc m_opens m_trace m_waits m_reads].
    destruct (1 + Z.of_nat (S n'') <=? num_retries c) eqn:L; [|apply Z.leb_gt in L; lia].
    destruct (w_open w (S n'') =? 0) eqn:O.
    - apply Z.eqb_eq in O. exfalso. apply (Hfail (S n'')); [lia | exact O].
    - cbn [negb]. destruct (1 + Z.of_nat (S n'') <? INT_MAX) eqn:M.
      + apply Z.ltb_lt in M. lia.
      + reflexivity. }
  cbn [run]. rewrite E. rewrite <- fail_blocks_snoc. replace (S n'' + 1)%nat with (S (S n'')) by lia.
  reflexivity.
Qed.

Lemma startup_counter_overflows_witness :
  run config_intmax world_down (Z.to_nat INT_MAX) init =
    mk_machine POverflow (Z.to_nat INT_MAX) 0 0 (fail_blocks config_intmax 1 (Z.to_nat INT_MAX)).
Proof.
  apply (startup_counter_overflows config_intmax world_down (Z.to_nat INT_MAX)).
  - reflexivity.
  - apply Z2Nat.id. vm_compute. discriminate.
  - intros t _. cbn [w_open world_down]. discriminate.
Defined.

(** X8: after a lost connection, when the first [j] reconnect attempts fail
    and the next one succeeds, [main] is back reading in [my_gps_mainloop]
    after exactly [j+1] [gps_open] calls and [j] sleeps of [RETRY_SLEEP],
    with no read in between. *)
Theorem reconnect_cycle c w m j :
  m_pc m = PMain S_RECONNECT ->
  (forall t, (t < j)%nat -> w_open w (m_opens m + t) <> 0) ->
  w_open w (m_opens m + j) = 0 ->
  run c w (j + 2) m =
    mk_machine PMainloop (m_opens m + S j) (m_waits m) (m_reads m)
      (m_trace m ++ concat (repeat [EOpen; ESleep RETRY_SLEEP] j) ++
       [EOpen; ESyslog LOG_INFO MsgReconnected; EStream]).
Proof.
  intros Hpc Hfail Hok.
  destruct m as [p o wt rd tr]; cbn [m_pc m_opens m_waits m_reads m_trace] in *; subst p.
  revert o tr Hfail Hok. induction j as [|j IH]; intros o tr Hfail Hok.
  - rewrite Nat.add_0_r in Hok.
    assert (E1 : step c w (mk_machine (PMain S_RECONNECT) o wt rd tr) =
      mk_machine (PMain S_CONNECTED) (S o) wt rd
        (tr ++ [EOpen; ESyslog LOG_INFO MsgReconnected; EStream])).
    { unfold step, attempt_reconnect, after_connect. cbn [m_pc m_opens m_trace].
      rewrite Hok. reflexivity. }
    cbn [run Nat.add]. rewrite E1. unfold step, goto; cbn [m_pc m_opens m_waits m_reads m_trace].
    rewrite app_nil_r, Nat.add_1_r. reflexivity.
  - assert (E : step c w (mk_machine (PMain S_RECONNECT) o wt rd tr) =
                mk_machine (PMain S_RECONNECT) (S o) wt rd (tr ++ [EOpen; ESleep RETRY_SLEEP])).
    { unfold step, attempt_reconnect, after_connect; cbn [m_pc m_opens m_trace].
      destruct (w_open w o =? 0) eqn:O; [|reflexivity].
      apply Z.eqb_eq in O. exfalso. apply (Hfail 0%nat); [lia|]. rewrite Nat.add_0_r. exact O. }
    change (run c w (S j + 2) (mk_machine (PMain S_RECONNECT) o wt rd tr))
      with (run c w (j + 2) (step c w (mk_machine (PMain S_RECONNECT) o wt rd tr))).
    rewrite E, IH.
    + f_equal; [lia|]. cbn [repeat concat]. rewrite <- !app_assoc. reflexivity.
    + intros t Ht. assert (Hx := Hfail (S t) ltac:(lia)). rewrite Nat.add_succ_r in Hx. exact Hx.
    + rewrite Nat.add_succ_r in Hok. exact Hok.
Qed.

Lemma reconnect_cycle_witness :
  run default_config
    (mk_world (fun k => if (k <? 7)%nat then -1 else 0) (fun _ => true)
       (fun _ => (0, fix_ok)) (fun _ => 0) 111 ctime_ok 64 x86_64_oob) (2 + 2) in_reconnect =
    mk_machine PMainloop (m_opens in_reconnect + 3) (m_waits in_reconnect)
      (m_reads in_reconnect)
      (m_trace in_reconnect ++ concat (repeat [EOpen; ESleep RETRY_SLEEP] 2) ++
       [EOpen; ESyslog LOG_INFO MsgReconnected; EStream]).
Proof.
  apply (reconnect_cycle default_config _ in_reconnect 2).
  - reflexivity.
  - intros t Ht. cbn [w_open m_opens in_reconnect].
    assert (E : (5 + t <? 7)%nat = true) by (apply Nat.ltb_lt; lia).
    rewrite E. discriminate.
  - reflexivity.
Defined.

(** ** Runs of my_gps_mainloop *)

Lemma callback_accept w g :
  time_present g -> status g <> STATUS_NO_FIX -> 0 < satellites_used g ->
  exists evs code,
    callback w g = (evs, Some code) /\ count_settime evs = 1%nat /\
    In (ESettime (mk_timeval (double_to_time_t (w_time_t_bits w) (w_time_t_oob w)
                                                (fix_time g)) 0)) evs.
Proof.
  intros Ht Hs Hn. unfold callback, ctime_log.
  destruct (Z.land (set g) TIME_SET =? 0) eqn:E1; [apply Z.eqb_eq in E1; contradiction|].
  destruct (status g =? STATUS_NO_FIX) eqn:E2; [apply Z.eqb_eq in E2; contradiction|].
  destruct (satellites_used g =? 0) eqn:E3; [apply Z.eqb_eq in E3; lia|].
  destruct (w_ctime w _); destruct (w_settime w _ =? 0);
    (eexists _, _; split; [reflexivity|]; split; [reflexivity|]; simpl; tauto).
Qed.

Lemma run_mainloop_rejects c w j m :
  m_pc m = PMainloop -> rejected_reports w m j ->
  exists evs,
    run c w j m = mk_machine PMainloop (m_opens m) (m_waits m + j) (m_reads m + j)
                    (m_trace m ++ evs) /\ count_settime evs = O.
Proof.
  revert m; induction j as [|j IH]; intros m Hpc Hrej.
  - exists []. destruct m; cbn in *; subst. rewrite !Nat.add_0_r, app_nil_r. split; reflexivity.
  - destruct (Hrej 0%nat ltac:(lia)) as (Hw & Hr & Hcb). rewrite !Nat.add_0_r in Hw, Hr, Hcb.
    destruct (w_read w (m_reads m)) as [rc g] eqn:R. cbn [fst snd] in Hr, Hcb.
    destruct (callback w g) as [cevs ex] eqn:Cb. cbn [snd] in Hcb. subst ex.
    pose proof (step_mainloop_callback_returns c w m rc g cevs Hpc Hw R Hr Cb) as E.
    pose proof (callback_reject_no_settime w g cevs Cb) as Hc.
    destruct (IH (step c w m)) as [evs [Hrun Hcnt]].
    + rewrite E. reflexivity.
    + intros t Ht. rewrite E. cbn [m_waits m_reads].
      destruct (Hrej (S t) ltac:(lia)) as (H1 & H2 & H3). rewrite !Nat.add_succ_r in *.
      repeat split; assumption.
    + exists ([EWaiting; ERead] ++ cevs ++ evs). cbn [run]. rewrite Hrun, E.
      cbn [m_opens m_waits m_reads m_trace]. split.
      * rewrite !Nat.add_succ_r, <- !app_assoc. reflexivity.
      * rewrite !count_settime_app, Hc, Hcnt. reflexivity.
Qed.

(** X9: [my_gps_mainloop] reads reports one after another: when the first
    [j] reports are rejected and the next one has the time present, a fix
    and satellites used, the clock is set exactly once, from that report
    (its time truncated to whole seconds, when that value fits the
    platform's [time_t]), and the process exits. *)
Theorem first_usable_report_committed c w m j rc g :
  m_pc m = PMainloop -> rejected_reports w m j ->
  w_waiting w (m_waits m + j) = true -> w_read w (m_reads m + j) = (rc, g) -> 0 <= rc ->
  time_present g -> status g <> STATUS_NO_FIX -> 0 < satellites_used g ->
  time_t_fits (w_time_t_bits w) (Qtrunc (fix_time g)) = true ->
  exists code,
    m_pc (run c w (S j) m) = PExit code /\
    count_settime (m_trace (run c w (S j) m)) = S (count_settime (m_trace m)) /\
    In (ESettime (mk_timeval (Qtrunc (fix_time g)) 0)) (m_trace (run c w (S j) m)).
Proof.
  intros Hpc Hrej Hw Hr Hrc Ht Hs Hn Hf.
  destruct (run_mainloop_rejects c w j m Hpc Hrej) as [evs [Hrun Hcnt]].
  replace (S j) with (j + 1)%nat by lia. rewrite run_add, Hrun.
  destruct (callback_accept w g Ht Hs Hn) as [cevs [code [Cb [Hc Hin]]]].
  exists code. cbn [run]. unfold step, mainloop_iter. cbn [m_pc m_waits m_reads m_trace].
  rewrite Hw, Hr. cbn [negb]. destruct (rc <? 0) eqn:L; [apply Z.ltb_lt in L; lia|].
  rewrite Cb. cbn [m_pc m_trace]. split; [reflexivity|]. split.
  - rewrite !count_settime_app, Hcnt, Hc. simpl. lia.
  - apply in_or_app. right. right. right.
    rewrite (double_to_time_t_in_range _ _ _ Hf) in Hin. exact Hin.
Qed.

Lemma first_usable_report_committed_witness :
  exists code,
    m_pc (run default_config world_scenario_b 3 in_mainloop) = PExit code /\
    count_settime (m_trace (run default_config world_scenario_b 3 in_mainloop)) =
      S (count_settime (m_trace in_mainloop)) /\
    In (ESettime (mk_timeval (Qtrunc (fix_time fix_ok)) 0))
      (m_trace (run default_config world_scenario_b 3 in_mainloop)).
Proof.
  apply (first_usable_report_committed default_config world_scenario_b in_mainloop 2 0 fix_ok).
  - reflexivity.
  - intros t Ht. destruct t as [|[|t]]; [vm_compute; repeat split; discriminate..|lia].
  - reflexivity.
  - reflexivity.
  - lia.
  - unfold time_present. vm_compute. discriminate.
  - vm_compute. discriminate.
  - simpl. lia.
  - vm_compute. reflexivity.
Defined.



(** ** The connection handle *)

Lemma conn_after_app b a l : conn_after b (a ++ l) = conn_after (conn_after b a) l.
Proof. revert b; induction a as [|e a IH]; intros b; [reflexivity|]. destruct e; apply IH. Qed.

Lemma opens_when_closed_app b a l :
  opens_when_closed b (a ++ l) = opens_when_closed b a && opens_when_closed (conn_after b a) l.
Proof.
  revert b; induction a as [|e a IH]; intros b; [reflexivity|].
  destruct e; simpl; rewrite ?IH; try reflexivity. apply andb_assoc.
Qed.

Lemma callback_conn w g b :
  opens_when_closed b (fst (callback w g)) = true /\
  conn_after b (fst (callback w g)) =
    match snd (callback w g) with None => b | Some _ => false end.
Proof.
  unfold callback, ctime_log.
  destruct (Z.land (set g) TIME_SET =? 0); [split; reflexivity|].
  destruct (w_ctime w _);
  (destruct (status g =? STATUS_NO_FIX); [split; reflexivity|];
   destruct (satellites_used g =? 0); [split; reflexivity|];
   destruct (w_settime w _ =? 0); split; reflexivity).
Qed.

Lemma mainloop_iter_conn w m res wt rd evs :
  mainloop_iter w m = (res, wt, rd, evs) ->
  opens_when_closed true evs = true /\
  conn_after true evs = match res with LoopExit _ => false | _ => true end.
Proof.
  unfold mainloop_iter.
  destruct (negb (w_waiting w (m_waits m))); [intros [= <- _ _ <-]; split; reflexivity|].
  destruct (w_read w (m_reads m)) as [rc g].
  destruct (rc <? 0); [intros [= <- _ _ <-]; split; reflexivity|].
  pose proof (callback_conn w g true) as [H1 H2].
  destruct (callback w g) as [cevs ex]; cbn [fst snd] in H1, H2.
  destruct ex; intros [= <- _ _ <-]; split; assumption.
Qed.

Lemma mainloop_iter_return_neg w m rc wt rd evs :
  mainloop_iter w m = (LoopReturn rc, wt, rd, evs) -> rc < 0.
Proof.
  unfold mainloop_iter.
  destruct (negb (w_waiting w (m_waits m))); [intros [= <- _ _ _]; lia|].
  destruct (w_read w (m_reads m)) as [rc' g].
  destruct (rc' <? 0) eqn:L; [intros [= <- _ _ _]; apply Z.ltb_lt; exact L|].
  destruct (callback w g) as [cevs [code|]]; discriminate.
Qed.

Lemma step_conn_inv c w m : conn_inv m -> conn_inv (step c w m).
Proof.
  destruct m as [p o wt rd tr]; unfold conn_inv, step, goto, after_connect;
    cbn [m_pc m_opens m_waits m_reads m_trace].
  intros [Hok Hp]. destruct p as [i rc|[r|]|[]| |code| |]; cbn [m_pc m_trace].
  - destruct Hp as [Hc Hrc].
    destruct (i <=? num_retries c).
    + unfold attempt_reconnect. destruct (negb (w_open w o =? 0)); cbn.
      * destruct (i <? _); cbn [m_pc m_trace];
          rewrite opens_when_closed_app, conn_after_app, Hok, Hc; cbn;
          [split; [reflexivity|]; split; [reflexivity|]; intros r [= <-]; lia
          | split; reflexivity].
      * rewrite opens_when_closed_app, conn_after_app, Hok, Hc. split; reflexivity.
    + rewrite app_nil_r. split; [exact Hok|]. destruct rc as [r|]; [|exact Hc].
      change (conn_after false tr = negb (r <? 0)).
      rewrite (proj2 (Z.ltb_lt r 0) (Hrc r eq_refl)). exact Hc.
  - destruct (r <? 0) eqn:L; cbn [m_pc m_trace];
      rewrite opens_when_closed_app, conn_after_app, Hok, Hp.
    + split; reflexivity.
    + destruct (no_detach c); split; reflexivity.
  - rewrite app_nil_r. split; assumption.
  - rewrite app_nil_r. split; assumption.
  - unfold attempt_reconnect. destruct (negb (w_open w o =? 0)); cbn;
      rewrite opens_when_closed_app, conn_after_app, Hok, Hp; split; reflexivity.
  - destruct (mainloop_iter w _) as [[[res wt'] rd'] evs] eqn:M.
    apply mainloop_iter_conn in M as [M1 M2].
    destruct res as [|rc|code']; cbn [m_pc m_trace].
    + rewrite opens_when_closed_app, conn_after_app, Hok, Hp, M1, M2. split; reflexivity.
    + destruct (rc <? 1); cbn [m_pc m_trace]; rewrite ?app_nil_r, ?app_assoc;
        repeat rewrite opens_when_closed_app, conn_after_app;
        rewrite Hok, Hp, M1, M2; split; reflexivity.
    + rewrite opens_when_closed_app, conn_after_app, Hok, Hp, M1, M2. split; reflexivity.
  - split; assumption.
  - split; assumption.
  - split; assumption.
Qed.

Lemma run_conn_inv c w n m : conn_inv m -> conn_inv (run c w n m).
Proof.
  revert m; induction n as [|n IH]; intros m H; [exact H|].
  apply IH, step_conn_inv, H.
Qed.

(** X10: at most one connection to gpsd is open at a time: over any run,
    [gps_open] is only called when no connection is open; [my_gps_mainloop]
    only waits and reads on an open connection; and when the process exits
    no connection is left open. *)
Theorem single_connection c w n :
  let m := run c w n init in
  opens_when_closed false (m_trace m) = true /\
  (m_pc m = PMainloop -> conn_after false (m_trace m) = true) /\
  (forall code, m_pc m = PExit code -> conn_after false (m_trace m) = false).
Proof.
  intros m.
  assert (H : conn_inv m).
  { apply run_conn_inv. split; [reflexivity|]. split; [reflexivity | discriminate]. }
  destruct H as [H1 H2]. split; [exact H1|].
  split; intros; match goal with Hp : m_pc m = _ |- _ => rewrite Hp in H2 end; exact H2.
Qed.

(** X11: [my_gps_mainloop] only returns to [main] with a negative value, so
    [main] always takes its [rc < 1] branch: it logs the value, closes the
    connection and switches to [S_RECONNECT]; it never stays in
    [S_CONNECTED] after the loop returned. *)
Theorem mainloop_return_reconnects c w m st :
  m_pc m = PMainloop -> m_pc (step c w m) = PMain st ->
  st = S_RECONNECT /\
  exists rc evs, rc < 0 /\
    m_trace (step c w m) = m_trace m ++ evs ++ [ESyslog LOG_ERR (MsgClosed rc); EClose].
Proof.
  intros Hpc. unfold step. rewrite Hpc.
  destruct (mainloop_iter w m) as [[[res wt] rd] evs] eqn:M.
  destruct res as [|rc|code]; cbn [m_pc]; try discriminate.
  pose proof (mainloop_iter_return_neg w m rc wt rd evs M) as Hneg.
  destruct (rc <? 1) eqn:L; [|apply Z.ltb_ge in L; lia].
  intros [= <-]. split; [reflexivity|]. exists rc, evs. split; [exact Hneg | reflexivity].
Qed.

Lemma mainloop_return_reconnects_witness :
  S_RECONNECT = S_RECONNECT /\
  exists rc evs, rc < 0 /\
    m_trace (step default_config world_down in_mainloop) =
      m_trace in_mainloop ++ evs ++ [ESyslog LOG_ERR (MsgClosed rc); EClose].
Proof.
  apply (mainloop_return_reconnects default_config world_down in_mainloop S_RECONNECT);
    reflexivity.
Defined.

(** ** Detaching *)

Lemma count_daemonize_app a l :
  count_daemonize (a ++ l) = (count_daemonize a + count_daemonize l)%nat.
Proof. induction a as [|e a IH]; [reflexivity|]. destruct e; cbn; rewrite ?IH; reflexivity. Qed.

Lemma callback_no_daemonize w g : count_daemonize (fst (callback w g)) = 0%nat.
Proof.
  unfold callback, ctime_log.
  destruct (Z.land (set g) TIME_SET =? 0); [reflexivity|].
  destruct (w_ctime w _);
  (destruct (status g =? STATUS_NO_FIX); [reflexivity|];
   destruct (satellites_used g =? 0); [reflexivity|];
   destruct (w_settime w _ =? 0); reflexivity).
Qed.

Lemma mainloop_iter_no_daemonize w m res wt rd evs :
  mainloop_iter w m = (res, wt, rd, evs) -> count_daemonize evs = 0%nat.
Proof.
  unfold mainloop_iter.
  destruct (negb (w_waiting w (m_waits m))); [intros [= _ _ _ <-]; reflexivity|].
  destruct (w_read w (m_reads m)) as [rc g].
  destruct (rc <? 0); [intros [= _ _ _ <-]; reflexivity|].
  pose proof (callback_no_daemonize w g) as H.
  destruct (callback w g) as [cevs ex]; cbn [fst] in H.
  destruct ex; intros [= _ _ _ <-]; exact H.
Qed.

Lemma attempt_reconnect_no_daemonize w k :
  count_daemonize (snd (attempt_reconnect w k)) = 0%nat.
Proof. unfold attempt_reconnect. destruct (negb (w_open w k =? 0)); reflexivity. Qed.

Lemma attempt_reconnect_stream w k :
  fst (attempt_reconnect w k) >= 0 -> In EStream (snd (attempt_reconnect w k)).
Proof.
  unfold attempt_reconnect. destruct (negb (w_open w k =? 0)); cbn; [lia|].
  intros _; right; right; left; reflexivity.
Qed.

Lemma detach_post_app c tr l :
  detach_post c tr -> count_daemonize l = 0%nat -> detach_post c (tr ++ l).
Proof.
  intros [H1 [H2 H3]] Hl. unfold detach_post. rewrite count_daemonize_app, Hl, Nat.add_0_r.
  split; [exact H1|]. split; [exact H2|].
  intros H. destruct (H3 H) as [a [b [-> Ha]]].
  exists a, (b ++ l). split; [rewrite <- app_assoc; reflexivity | exact Ha].
Qed.

Lemma step_detach_inv c w m : detach_inv c m -> detach_inv c (step c w m).
Proof.
  destruct m as [p o wt rd tr]; unfold detach_inv, step, goto, after_connect;
    cbn [m_pc m_opens m_waits m_reads m_trace].
  destruct p as [i rc|[r|]|[]| |code| |]; cbn [m_pc m_trace]; intros Hp.
  - destruct Hp as [Hc Hrc].
    destruct (i <=? num_retries c).
    + pose proof (attempt_reconnect_no_daemonize w o) as D.
      pose proof (attempt_reconnect_stream w o) as St.
      destruct (attempt_reconnect w o) as [r evs]; cbn [fst snd] in D, St.
      destruct (r >=? 0) eqn:L; cbn [m_pc m_trace].
      * split.
        { rewrite count_daemonize_app, Hc. cbn [count_daemonize]. rewrite D. reflexivity. }
        intros _. apply in_or_app. right. right. apply St. apply Z.geb_le in L. lia.
      * destruct (i <? _); cbn [m_pc m_trace].
        -- split.
           { rewrite count_daemonize_app, Hc. cbn [count_daemonize].
             rewrite count_daemonize_app, D. reflexivity. }
           intros r' [= <-]. rewrite Z.geb_leb in L. apply Z.leb_gt in L. lia.
        -- unfold detach_post. rewrite count_daemonize_app, Hc. cbn [count_daemonize].
           rewrite count_daemonize_app, D. cbn.
           split; [lia|]. split; [reflexivity | discriminate].
    + rewrite app_nil_r. destruct rc as [r|]; [|exact Hc].
      split; [exact Hc|]. intros Hr. specialize (Hrc r eq_refl). lia.
  - destruct Hp as [Hc Hs]. destruct (r <? 0) eqn:L; cbn [m_pc m_trace].
    + unfold detach_post. rewrite count_daemonize_app, Hc. cbn.
      split; [lia|]. split; [reflexivity | discriminate].
    + apply Z.ltb_ge in L. specialize (Hs L).
      unfold detach_post. rewrite count_daemonize_app, Hc.
      destruct (no_detach c) eqn:N; cbn.
      * split; [lia|]. split; [reflexivity | discriminate].
      * split; [lia|]. split; [discriminate|].
        intros _. exists tr, []. split; [reflexivity | exact Hs].
  - rewrite app_nil_r. unfold detach_post. rewrite Hp.
    split; [lia|]. split; [reflexivity | discriminate].
  - rewrite app_nil_r. exact Hp.
  - pose proof (attempt_reconnect_no_daemonize w o) as D.
    destruct (attempt_reconnect w o) as [r evs]; cbn [snd] in D.
    destruct (r <? 0); cbn [m_pc m_trace]; apply detach_post_app; try assumption.
    rewrite count_daemonize_app, D. reflexivity.
  - destruct (mainloop_iter w _) as [[[res wt'] rd'] evs] eqn:M.
    apply mainloop_iter_no_daemonize in M.
    destruct res as [|rc|code']; cbn [m_pc m_trace].
    + apply detach_post_app; assumption.
    + destruct (rc <? 1); cbn [m_pc]; apply detach_post_app; try assumption;
        rewrite count_daemonize_app, M; reflexivity.
    + apply detach_post_app; assumption.
  - exact Hp.
  - exact Hp.
  - exact Hp.
Qed.

Lemma run_detach_inv c w n m : detach_inv c m -> detach_inv c (run c w n m).
Proof.
  revert m; induction n as [|n IH]; intros m H; [exact H|].
  apply IH, step_detach_inv, H.
Qed.

(** X12: over any run, [osmo_daemonize] is called at most once; never when
    [-d] was given; and only after a connection to gpsd was established
    ([gps_stream] appears before it in the trace). *)
Theorem detach_at_most_once c w n :
  let tr := m_trace (run c w n init) in
  (count_daemonize tr <= 1)%nat /\
  (no_detach c = true -> count_daemonize tr = 0%nat) /\
  (count_daemonize tr = 1%nat ->
   exists a b, tr = a ++ EDaemonize :: b /\ In EStream a).
Proof.
  cbv zeta.
  assert (H : detach_inv c (run c w n init)).
  { apply run_detach_inv. split; [reflexivity | discriminate]. }
  unfold detach_inv in H.
  destruct (run c w n init) as [p o wt rd t]; cbn [m_pc m_trace] in *.
  destruct p as [i rc|[r|]|[]| |code| |];
    first
    [ exact H
    | (rewrite H || (destruct H as [H _]; rewrite H));
      split; [lia|]; split; [reflexivity | discriminate] ].
Qed.
